(** * Progol-aleatorio2: the slip generator, the match scraper and the slip store

    A shallow embedding of [quiniela_generator.py], [scraper.py] and
    [database.py], and the properties of their specification.

    Conventions of the embedding:
    - a Python [str] is the list of its code points ([pystr]), so that
      [len] is [length] and [==] is equality of lists;
    - code that draws random numbers or may raise runs in a small
      state-and-exception monad [M S A := S -> result A * S];
    - the random generator is an oracle: a tape that holds one number for
      each call of a primitive of [random], with a read position;
    - a Python [float] is an IEEE 754 binary64 number ([spec_float] with
      precision 53 and maximal exponent 1024). *)

From Stdlib Require Import ZArith NArith List String Ascii Lia Bool DecimalString.
From Stdlib Require Import Floats.SpecFloat Sorting.Sorted.
From stdpp Require Import base decidable option list gmap.

Local Open Scope nat_scope.

(** ** Python strings *)

Definition pystr := list N.

(** UTF-8 decoding of a literal of this file into code points. [k] is the
    number of continuation bytes still expected and [acc] the code point
    read so far. *)
Fixpoint utf8_go (bs : list N) (acc : N) (k : nat) : pystr :=
  match bs with
  | [] => []
  | b :: bs' =>
      match k with
      | S k' =>
          let acc' := (acc * 64 + b mod 64)%N in
          match k' with
          | O => acc' :: utf8_go bs' 0%N O
          | S _ => utf8_go bs' acc' k'
          end
      | O =>
          if (b <? 128)%N then b :: utf8_go bs' 0%N O
          else if (b <? 224)%N then utf8_go bs' (b mod 32)%N 1
          else if (b <? 240)%N then utf8_go bs' (b mod 16)%N 2
          else utf8_go bs' (b mod 8)%N 3
      end
  end.

Fixpoint bytes_of (s : string) : list N :=
  match s with
  | EmptyString => []
  | String c s' => N_of_ascii c :: bytes_of s'
  end.

Definition u (s : string) : pystr := utf8_go (bytes_of s) 0%N O.

(** [str(n)] for a natural number. *)
Definition str_of_nat (n : nat) : pystr :=
  u (NilEmpty.string_of_uint (Nat.to_uint n)).

(** ** Exceptions and the monad *)

(** The instances of Python's [Exception] that the modelled code can meet.
    [ExternalError] stands for whatever a library outside the repository
    raises (requests, BeautifulSoup, trafilatura, psycopg2). *)
Inductive exn : Type :=
  | KeyError
  | IndexError
  | ValueError
  | ZeroDivisionError
  | ExternalError (code : nat).

Inductive result (A : Type) : Type :=
  | Ok (a : A)
  | Raise (e : exn).
Arguments Ok {A} a.
Arguments Raise {A} e.

Definition M (S A : Type) : Type := S -> result A * S.

Definition ret {S A} (a : A) : M S A := fun s => (Ok a, s).

Definition raise {S A} (e : exn) : M S A := fun s => (Raise e, s).

Definition bind {S A B} (c : M S A) (k : A -> M S B) : M S B :=
  fun s =>
    match c s with
    | (Ok a, s') => k a s'
    | (Raise e, s') => (Raise e, s')
    end.

(** [try: c  except Exception as e: h e] *)
Definition try_except {S A} (c : M S A) (h : exn -> M S A) : M S A :=
  fun s =>
    match c s with
    | (Ok a, s') => (Ok a, s')
    | (Raise e, s') => h e s'
    end.

Declare Scope py_scope.
Delimit Scope py_scope with py.
Notation "'let!' x ':=' c 'in' k" := (bind c (fun x => k))
  (at level 10, x name, c at level 100, k at level 200) : py_scope.
Local Open Scope py_scope.

(** [for x in l: ...] collecting one value per iteration. *)
Fixpoint mapM {S A B} (f : A -> M S B) (l : list A) : M S (list B) :=
  match l with
  | [] => ret []
  | x :: l' =>
      let! y := f x in
      let! ys := mapM f l' in
      ret (y :: ys)
  end.

(** [enumerate(l)] *)
Definition enumerate {A} (l : list A) : list (nat * A) :=
  combine (seq 0 (length l)) l.

(** ** The random generator *)

Record Rng : Type := mkRng { tape : nat -> N; pos : nat }.

Definition draw (g : Rng) : N := tape g (pos g).
Definition advance (k : nat) (g : Rng) : Rng := mkRng (tape g) (pos g + k).

(** [random._randbelow(n)] for [n > 0]: any value below [n]. One cell of
    the tape stands for one call and decides its result; how many words
    of the Mersenne Twister the call consumes (it draws again while the
    bits drawn are not below [n]) is not modelled, so a position of the
    tape counts calls, not words of the generator. *)
Definition _randbelow (n : nat) : M Rng nat :=
  fun g => (Ok (N.to_nat (draw g) mod n), advance 1 g).

(** [random.choice(seq)]: raises IndexError on an empty sequence. *)
Definition choice {A} (l : list A) : M Rng A :=
  match l with
  | [] => raise IndexError
  | x :: _ =>
      let! i := _randbelow (length l) in
      ret (nth i l x)
  end.

(** ** Floats *)

Definition float := spec_float.
Definition prec : Z := 53.
Definition emax : Z := 1024.

Definition float_of_Z (z : Z) : float := binary_normalize prec emax z 0 false.
Definition fadd : float -> float -> float := SFadd prec emax.
Definition fmul : float -> float -> float := SFmul prec emax.
Definition fdiv : float -> float -> float := SFdiv prec emax.
Definition flt : float -> float -> bool := SFltb.

(** [random.random()]: a multiple of 2^-53 in [0, 1). *)
Definition float_of_draw (d : N) : float :=
  binary_normalize prec emax (Z.of_N d mod 2 ^ 53) (-53) false.

Definition random : M Rng float :=
  fun g => (Ok (float_of_draw (draw g)), advance 1 g).

(** The literals of the source, as the nearest binary64 numbers. *)
Definition f0_5 : float := S754_finite false 4503599627370496 (-53).
Definition f0_25 : float := S754_finite false 4503599627370496 (-54).
Definition f0_3 : float := S754_finite false 5404319552844595 (-54).
Definition f0_4 : float := S754_finite false 7205759403792794 (-54).
Definition f0_75 : float := S754_finite false 6755399441055744 (-53).
Definition f0_7 : float := S754_finite false 6305039478318694 (-53).
Definition f1_0 : float := S754_finite false 4503599627370496 (-52).
Definition f100 : float := float_of_Z 100.

(** ** Dictionaries in insertion order *)

Fixpoint dict_get {V} (d : list (pystr * V)) (k : pystr) : option V :=
  match d with
  | [] => None
  | (k', v) :: d' => if decide (k' = k) then Some v else dict_get d' k
  end.

(** [d[k] = v]: an existing key keeps its place. *)
Fixpoint dict_set {V} (d : list (pystr * V)) (k : pystr) (v : V)
  : list (pystr * V) :=
  match d with
  | [] => [(k, v)]
  | (k', v') :: d' =>
      if decide (k' = k) then (k', v) :: d' else (k', v') :: dict_set d' k v
  end.

(** [d[k]], raising KeyError. *)
Definition dict_item {S V} (d : list (pystr * V)) (k : pystr) : M S V :=
  match dict_get d k with
  | Some v => ret v
  | None => raise KeyError
  end.

Definition keys {V} (d : list (pystr * V)) : list pystr := map fst d.

(** [range(n)] for a Python [int]: empty when [n] is negative. *)
Definition range (n : Z) : list nat := seq 0 (Z.to_nat n).

(** ** The dictionaries that travel between the components *)

(** A match, as the scraper builds it; the generator reads ['fecha'] with
    a default, so that key may be absent. *)
Record Partido : Type := mkPartido {
  local : pystr;
  visitante : pystr;
  fecha : option pystr
}.

(** One line of a slip. *)
Record Resultado : Type := mkResultado {
  partido : nat;
  res_local : pystr;
  res_visitante : pystr;
  res_fecha : pystr;
  prediccion : pystr;
  codigo : pystr;
  simbolo : pystr
}.

(** ** quiniela_generator.py *)

Module QuinielaGenerator.

Record PrediccionInfo : Type := mkInfo {
  info_codigo : pystr;
  info_simbolo : pystr
}.

(** [self.predicciones] *)
Definition predicciones : list (pystr * PrediccionInfo) :=
  [ (u "Local", mkInfo (u "1") (u "🏠"));
    (u "Empate", mkInfo (u "X") (u "🤝"));
    (u "Visitante", mkInfo (u "2") (u "✈️")) ].

(** The body shared by the two generation loops: the dictionary built for
    match number [i] (0-based) once the outcome key is chosen. *)
Definition resultado (i : nat) (p : Partido) (prediccion_key : pystr)
  : M Rng Resultado :=
  let! prediccion_info := dict_item predicciones prediccion_key in
  ret {| partido := i + 1;
         res_local := local p;
         res_visitante := visitante p;
         res_fecha := default (u "Sin fecha") (fecha p);
         prediccion := prediccion_key;
         codigo := info_codigo prediccion_info;
         simbolo := info_simbolo prediccion_info |}.

Definition _generar_quiniela_individual (partidos : list Partido)
  : M Rng (list Resultado) :=
  mapM (fun ip : nat * Partido =>
          let! prediccion_key := choice (keys predicciones) in
          resultado (fst ip) (snd ip) prediccion_key)
       (enumerate (take 14 partidos)).

Definition generar_quinielas (partidos : list Partido) (cantidad : Z)
  : M Rng (list (list Resultado)) :=
  match partidos with
  | [] => ret []
  | _ :: _ =>
      mapM (fun _ : nat => _generar_quiniela_individual partidos)
           (range cantidad)
  end.

(** [probabilidades] of [generar_quiniela_con_tendencia]. *)
Definition probabilidades : list (pystr * list (pystr * float)) :=
  [ (u "local",
       [(u "Local", f0_5); (u "Empate", f0_25); (u "Visitante", f0_25)]);
    (u "visitante",
       [(u "Local", f0_25); (u "Empate", f0_25); (u "Visitante", f0_5)]);
    (u "empate",
       [(u "Local", f0_3); (u "Empate", f0_4); (u "Visitante", f0_3)]) ].

(** The [if]/[elif]/[else] on [rand_val]. *)
Definition elegir (prob : list (pystr * float)) (rand_val : float)
  : M Rng pystr :=
  let! pl := dict_item prob (u "Local") in
  if flt rand_val pl then ret (u "Local")
  else
    let! pl' := dict_item prob (u "Local") in
    let! pe := dict_item prob (u "Empate") in
    if flt rand_val (fadd pl' pe) then ret (u "Empate")
    else ret (u "Visitante").

Definition generar_quiniela_con_tendencia
    (partidos : list Partido) (tendencia : pystr) : M Rng (list Resultado) :=
  if decide (tendencia = u "equilibrada") then
    _generar_quiniela_individual partidos
  else
    let! por_defecto := dict_item probabilidades (u "local") in
    let prob := default por_defecto (dict_get probabilidades tendencia) in
    mapM (fun ip : nat * Partido =>
            let! rand_val := random in
            let! prediccion_key := elegir prob rand_val in
            resultado (fst ip) (snd ip) prediccion_key)
         (enumerate (take 14 partidos)).

Record Estadisticas : Type := mkEstadisticas {
  total_partidos : nat;
  est_predicciones : list (pystr * nat);
  porcentajes : list (pystr * float)
}.

(** [a / b] on Python integers: ZeroDivisionError when [b] is zero. The
    conversion to binary64 is exact below 2^53, far above the length of
    any list. *)
Definition truediv {S} (a b : nat) : M S float :=
  match b with
  | O => raise ZeroDivisionError
  | S _ => ret (fdiv (float_of_Z (Z.of_nat a)) (float_of_Z (Z.of_nat b)))
  end.

(** The counting loop: [predicciones_count[pred] = predicciones_count.get(pred, 0) + 1]. *)
Definition contar (quiniela : list Resultado) : list (pystr * nat) :=
  fold_left
    (fun d r => dict_set d (prediccion r)
                  (default 0 (dict_get d (prediccion r)) + 1))
    quiniela [].

Definition calcular_estadisticas_quiniela {S} (quiniela : list Resultado)
  : M S Estadisticas :=
  let total := length quiniela in
  let predicciones_count := contar quiniela in
  let! pct :=
    mapM (fun pc : pystr * nat =>
            let! q := truediv (snd pc) total in
            ret (fst pc, fmul q f100))
         predicciones_count in
  ret {| total_partidos := total;
         est_predicciones := predicciones_count;
         porcentajes := pct |}.

End QuinielaGenerator.

(** ** scraper.py *)

Module Scraper.

(** [str.isspace] for one code point; the regular expression class [\s]
    of a [str] pattern is the same set. *)
Definition isspace (c : N) : bool :=
  ((9 <=? c) && (c <=? 13) || (28 <=? c) && (c <=? 32)
   || (c =? 133) || (c =? 160) || (c =? 5760)
   || (8192 <=? c) && (c <=? 8202)
   || (c =? 8232) || (c =? 8233) || (c =? 8239) || (c =? 8287)
   || (c =? 12288))%N.

Fixpoint lstrip (s : pystr) : pystr :=
  match s with
  | [] => []
  | c :: s' => if isspace c then lstrip s' else s
  end.

(** [s.strip()] *)
Definition strip (s : pystr) : pystr := rev (lstrip (rev (lstrip s))).

(** The class [[A-Za-záéíóúÁÉÍÓÚñÑ\s]] of the team-name groups. *)
Definition es_letra (c : N) : bool :=
  ((65 <=? c) && (c <=? 90) || (97 <=? c) && (c <=? 122))%N
  || bool_decide (c ∈ u "áéíóúÁÉÍÓÚñÑ")
  || isspace c.

(** Length of the longest prefix of [s] made of characters in [p]. *)
Fixpoint span (p : N -> bool) (s : pystr) : nat :=
  match s with
  | [] => 0
  | c :: s' => if p c then S (span p s') else 0
  end.

Definition starts_with (pre s : pystr) : bool :=
  bool_decide (take (length pre) s = pre).

(** Backtracking of a greedy repetition: the first of [n], [n-1], ..., 1
    on which the rest of the pattern matches. *)
Fixpoint first_down {A} (n : nat) (f : nat -> option A) : option A :=
  match n with
  | O => None
  | S n' =>
      match f n with
      | Some a => Some a
      | None => first_down n' f
      end
  end.

(** [\s+([...]+)] at the end of the pattern: the second group and the
    number of characters matched. *)
Definition match_visitante (s : pystr) : option (pystr * nat) :=
  first_down (span isspace s) (fun j =>
    let r := drop j s in
    match span es_letra r with
    | O => None
    | S n => Some (take (S n) r, j + S n)
    end).

(** [\s+(?:vs|contra)\s+([...]+)] *)
Definition match_separador (s : pystr) : option (pystr * nat) :=
  first_down (span isspace s) (fun k =>
    let r := drop k s in
    let con (w : pystr) :=
      if starts_with w r then
        match match_visitante (drop (length w) r) with
        | Some (g2, n) => Some (g2, k + length w + n)
        | None => None
        end
      else None in
    match con (u "vs") with
    | Some m => Some m
    | None => con (u "contra")
    end).

(** The whole pattern anchored at the start of [s]. *)
Definition match_at (s : pystr) : option (pystr * pystr * nat) :=
  first_down (span es_letra s) (fun m =>
    match match_separador (drop m s) with
    | Some (g2, n) => Some (take m s, g2, m + n)
    | None => None
    end).

Fixpoint findall_go (fuel : nat) (s : pystr) : list (pystr * pystr) :=
  match fuel with
  | O => []
  | S fuel' =>
      match s with
      | [] => []
      | _ :: s' =>
          match match_at s with
          | Some (g1, g2, n) => (g1, g2) :: findall_go fuel' (drop n s)
          | None => findall_go fuel' s'
          end
      end
  end.

(** [re.findall(r'([A-Za-záéíóúÁÉÍÓÚñÑ\s]+)\s+(?:vs|contra)\s+([A-Za-záéíóúÁÉÍÓÚñÑ\s]+)', s)] *)
Definition findall (s : pystr) : list (pystr * pystr) :=
  findall_go (S (length s)) s.

(** What [find_all] returns: text nodes ([isinstance(element, str)]) or
    tags, read through [get_text()]. *)
Inductive Element : Type :=
  | NavigableString (s : pystr)
  | Tag (get_text : pystr).

Definition proxima_jornada : pystr := u "Próxima jornada".

Definition partidos_de (matches : list (pystr * pystr)) : list Partido :=
  map (fun m => mkPartido (strip (fst m)) (strip (snd m))
                  (Some proxima_jornada)) matches.

(** The body of [for element in pattern_group]. *)
Definition partidos_de_elemento (element : Element) : list Partido :=
  match element with
  | NavigableString s => partidos_de (findall s)
  | Tag text => partidos_de (findall text)
  end.

(** [for pattern_group in patterns: if partidos: break ...] *)
Fixpoint recorrer (patterns : list (list Element)) (partidos : list Partido)
  : list Partido :=
  match patterns with
  | [] => partidos
  | pattern_group :: rest =>
      match partidos with
      | _ :: _ => partidos
      | [] =>
          recorrer rest
            (partidos ++ flat_map partidos_de_elemento pattern_group)
      end
  end.

Definition es_valido (p : Partido) : bool :=
  (2 <? length (local p)) && (2 <? length (visitante p))
  && negb (bool_decide (local p = visitante p)).

(** The filtering loop, with its [break] at 14. *)
Fixpoint filtrar (partidos partidos_validos : list Partido) : list Partido :=
  match partidos with
  | [] => partidos_validos
  | p :: rest =>
      if es_valido p then
        let partidos_validos' := partidos_validos ++ [p] in
        if 14 <=? length partidos_validos' then partidos_validos'
        else filtrar rest partidos_validos'
      else filtrar rest partidos_validos
  end.

Definition equipos_mexicanos : list pystr :=
  map u [ "América"; "Chivas"; "Cruz Azul"; "Pumas"; "Tigres"; "Monterrey";
          "Santos"; "León"; "Atlas"; "Necaxa"; "Pachuca"; "Toluca";
          "Puebla"; "Tijuana"; "Mazatlán"; "Querétaro"; "Juárez";
          "San Luis" ]%string.

Definition equipos_internacionales : list pystr :=
  map u [ "Barcelona"; "Real Madrid"; "Manchester United"; "Liverpool";
          "Bayern Munich"; "PSG"; "Juventus"; "Inter Milan"; "Chelsea";
          "Arsenal"; "Manchester City"; "Atletico Madrid";
          "Borussia Dortmund"; "AC Milan" ]%string.

(** [l.remove(x)]: drops the first occurrence, ValueError when absent. *)
Fixpoint list_remove {S} (x : pystr) (l : list pystr) : M S (list pystr) :=
  match l with
  | [] => raise ValueError
  | y :: l' =>
      if decide (y = x) then ret l'
      else
        let! r := list_remove x l' in
        ret (y :: r)
  end.

(** The variables of the loop of [_generate_sample_partidos]. The list
    [todos_los_equipos] is part of the state because [disponibles] is the
    same object after a reset, and [remove] then shortens it. *)
Record Muestra : Type := mkMuestra {
  todos_los_equipos : list pystr;
  equipos_usados : gset pystr;
  partidos : list Partido
}.

Definition jornada (i : nat) : pystr := u "Jornada " ++ str_of_nat (i + 1).

(** One iteration of [for i in range(14)]. *)
Definition paso (st : Muestra) (i : nat) : M Rng Muestra :=
  let disponibles :=
    filter (fun e => e ∉ equipos_usados st) (todos_los_equipos st) in
  if length disponibles <? 2 then
    (* equipos_usados.clear(); disponibles = todos_los_equipos *)
    let! local := choice (todos_los_equipos st) in
    let! todos' := list_remove local (todos_los_equipos st) in
    let! visitante := choice todos' in
    ret {| todos_los_equipos := todos';
           equipos_usados := {[visitante]} ∪ ({[local]} ∪ ∅);
           partidos := partidos st ++
             [mkPartido local visitante (Some (jornada i))] |}
  else
    let! local := choice disponibles in
    let! disponibles' := list_remove local disponibles in
    let! visitante := choice disponibles' in
    ret {| todos_los_equipos := todos_los_equipos st;
           equipos_usados :=
             {[visitante]} ∪ ({[local]} ∪ equipos_usados st);
           partidos := partidos st ++
             [mkPartido local visitante (Some (jornada i))] |}.

(** [for x in l] threading the loop variables. *)
Fixpoint foldM {S A B} (f : B -> A -> M S B) (l : list A) (b : B) : M S B :=
  match l with
  | [] => ret b
  | x :: l' =>
      let! b' := f b x in
      foldM f l' b'
  end.

Definition _generate_sample_partidos : M Rng (list Partido) :=
  let! st :=
    foldM paso (range 14)
      {| todos_los_equipos := equipos_mexicanos ++ equipos_internacionales;
         equipos_usados := ∅;
         partidos := [] |} in
  ret (partidos st).

(** [text.split('\n')] *)
Fixpoint split_lines (s : pystr) (line : pystr) : list pystr :=
  match s with
  | [] => [rev line]
  | c :: s' =>
      if (c =? 10)%N then rev line :: split_lines s' []
      else split_lines s' (c :: line)
  end.

(** The inner [for match in matches] of the plain-text strategy, with its
    [break]. *)
Fixpoint acumular (matches : list (pystr * pystr)) (partidos : list Partido)
  : list Partido :=
  match matches with
  | [] => partidos
  | m :: rest =>
      let local := strip (fst m) in
      let visitante := strip (snd m) in
      if negb (bool_decide (local = visitante))
         && (2 <? length local) && (2 <? length visitante) then
        let partidos' :=
          partidos ++ [mkPartido local visitante (Some proxima_jornada)] in
        if 14 <=? length partidos' then partidos'
        else acumular rest partidos'
      else acumular rest partidos
  end.

Section Web.

(** What lies outside the repository. [requests_get] is the download of
    the page, [raise_for_status], the parse and the three [find_all], in
    the order of [patterns]; [trafilatura_text] is [fetch_url] followed by
    [extract], [None] when either is falsy; [findall_lineas] is
    [re.findall] with the case-insensitive pattern of the second strategy.
    Each of the first two may raise. *)
Variable requests_get : M Rng (list (list Element)).
Variable trafilatura_text : M Rng (option pystr).
Variable findall_lineas : pystr -> list (pystr * pystr).

Definition _scrape_with_requests : M Rng (list Partido) :=
  try_except
    (let! patterns := requests_get in
     let partidos := recorrer patterns [] in
     ret (filtrar partidos []))
    (fun _ => ret []).

(** [for line in lines], with the outer [break]. *)
Fixpoint por_lineas (lines : list pystr) (partidos : list Partido)
  : list Partido :=
  match lines with
  | [] => partidos
  | line :: rest =>
      let partidos' := acumular (findall_lineas line) partidos in
      if 14 <=? length partidos' then partidos'
      else por_lineas rest partidos'
  end.

Definition _scrape_with_trafilatura : M Rng (list Partido) :=
  try_except
    (let! text := trafilatura_text in
     match text with
     | None => ret []
     | Some text => ret (por_lineas (split_lines text []) [])
     end)
    (fun _ => ret []).

(** [get_partidos], over the two strategies it calls on [self]. *)
Definition get_partidos_con (primera segunda : M Rng (list Partido))
  : M Rng (list Partido) :=
  try_except
    (let! partidos := primera in
     let! partidos :=
       match partidos with
       | [] => segunda
       | _ :: _ => ret partidos
       end in
     match partidos with
     | [] => _generate_sample_partidos
     | _ :: _ => ret partidos
     end)
    (fun _ => _generate_sample_partidos).

Definition get_partidos : M Rng (list Partido) :=
  get_partidos_con _scrape_with_requests _scrape_with_trafilatura.

End Web.

End Scraper.

(** ** database.py *)

Module Database.

(** A row of the table [quinielas]. *)
Record Row : Type := mkRow {
  id : Z;
  fecha_generacion : Z;
  num_partidos : Z;
  datos : list Resultado
}.

(** The PostgreSQL server as one session sees it: the committed rows, the
    sequence behind [SERIAL], the clock behind [CURRENT_TIMESTAMP], and
    which calls of the driver fail ([faults], indexed by the number of
    calls made so far). *)
Record Server : Type := mkServer {
  quinielas : list Row;
  quinielas_id_seq : Z;
  now : Z;
  faults : nat -> bool;
  calls : nat
}.

(** One call into psycopg2: it raises when the server says so. *)
Definition call : M Server unit :=
  fun s =>
    let s' := mkServer (quinielas s) (quinielas_id_seq s) (now s + 1)
                (faults s) (calls s + 1) in
    if faults s (calls s) then (Raise (ExternalError (calls s)), s')
    else (Ok tt, s').

Definition select_all : M Server (list Row) := fun s => (Ok (quinielas s), s).

(** [nextval]: not undone by a rollback. *)
Definition nextval : M Server Z :=
  fun s =>
    (Ok (quinielas_id_seq s),
     mkServer (quinielas s) (quinielas_id_seq s + 1) (now s) (faults s)
       (calls s)).

Definition current_timestamp : M Server Z := fun s => (Ok (now s), s).

(** [conn.commit()]: the rows of the transaction become the table. *)
Definition commit (rows : list Row) : M Server unit :=
  let! _ := call in
  fun s =>
    (Ok tt,
     mkServer rows (quinielas_id_seq s) (now s) (faults s) (calls s)).

Record QuinielaDatabase : Type := mkDb {
  database_url : option pystr;
  db_available : bool
}.

(** [_init_database]: both statements are [IF NOT EXISTS]; the rows stay. *)
Definition _init_database : M Server unit :=
  try_except
    (let! _ := call in (* _get_connection *)
     let! _ := call in (* cursor *)
     let! _ := call in (* CREATE TABLE *)
     let! _ := call in (* CREATE INDEX *)
     let! rows := select_all in
     let! _ := commit rows in
     let! _ := call in (* cur.close *)
     call)             (* conn.close *)
    (fun _ => ret tt).

(** [__init__], given [os.environ]. *)
Definition __init__ (environ : list (pystr * pystr))
  : M Server QuinielaDatabase :=
  let database_url := dict_get environ (u "DATABASE_URL") in
  let db_available := bool_decide (database_url <> None) in
  let self := mkDb database_url db_available in
  if db_available then
    let! _ := _init_database in
    ret self
  else ret self.

Definition guardar_quiniela (self : QuinielaDatabase)
    (quiniela : list Resultado) : M Server (option Z) :=
  if negb (db_available self) then ret None
  else
    try_except
      (let! _ := call in (* _get_connection *)
       let! _ := call in (* cursor *)
       let num := Z.of_nat (length quiniela) in
       let! _ := call in (* INSERT ... RETURNING id *)
       let! rows := select_all in
       let! quiniela_id := nextval in
       let! t := current_timestamp in
       let rows' := rows ++ [mkRow quiniela_id t num quiniela] in
       let! _ := call in (* fetchone *)
       let! _ := commit rows' in
       let! _ := call in (* cur.close *)
       let! _ := call in (* conn.close *)
       ret (Some quiniela_id))
      (fun _ => ret None).

(** [ORDER BY fecha_generacion DESC]: insertion of one row. *)
Fixpoint insertar (r : Row) (l : list Row) : list Row :=
  match l with
  | [] => [r]
  | x :: l' =>
      if (fecha_generacion x <? fecha_generacion r)%Z then r :: l
      else x :: insertar r l'
  end.

Definition order_by_fecha_desc (l : list Row) : list Row :=
  foldr insertar [] l.

(** [LIMIT %s]: a negative limit is an error of the server. *)
Definition limit (n : Z) (l : list Row) : M Server (list Row) :=
  if (n <? 0)%Z then raise (ExternalError 0) else ret (take (Z.to_nat n) l).

Definition obtener_quinielas (self : QuinielaDatabase) (limite : Z)
  : M Server (list Row) :=
  if negb (db_available self) then ret []
  else
    try_except
      (let! _ := call in (* _get_connection *)
       let! _ := call in (* cursor *)
       let! _ := call in (* SELECT *)
       let! rows := select_all in
       let! rows := limit limite (order_by_fecha_desc rows) in
       let! _ := call in (* fetchall *)
       let! _ := call in (* cur.close *)
       let! _ := call in (* conn.close *)
       ret rows)
      (fun _ => ret []).

Definition obtener_quiniela_por_id (self : QuinielaDatabase)
    (quiniela_id : Z) : M Server (option Row) :=
  if negb (db_available self) then ret None
  else
    try_except
      (let! _ := call in (* _get_connection *)
       let! _ := call in (* cursor *)
       let! _ := call in (* SELECT ... WHERE id = %s *)
       let! rows := select_all in
       let! _ := call in (* fetchone *)
       let row := head (filter (fun r => id r = quiniela_id) rows) in
       let! _ := call in (* cur.close *)
       let! _ := call in (* conn.close *)
       ret row)
      (fun _ => ret None).

Definition eliminar_quiniela (self : QuinielaDatabase) (quiniela_id : Z)
  : M Server bool :=
  if negb (db_available self) then ret false
  else
    try_except
      (let! _ := call in (* _get_connection *)
       let! _ := call in (* cursor *)
       let! _ := call in (* DELETE ... WHERE id = %s *)
       let! rows := select_all in
       let rows' := filter (fun r => id r <> quiniela_id) rows in
       let rowcount := length rows - length rows' in
       let eliminado := 0 <? rowcount in
       let! _ := commit rows' in
       let! _ := call in (* cur.close *)
       let! _ := call in (* conn.close *)
       ret eliminado)
      (fun _ => ret false).

Record Resumen : Type := mkResumen {
  total_quinielas : Z;
  primera_quiniela : option Z;
  ultima_quiniela : option Z
}.

(** [MIN] and [MAX] of a column: NULL on an empty table. *)
Definition agregado (f : Z -> Z -> Z) (l : list Z) : option Z :=
  match l with
  | [] => None
  | x :: l' => Some (fold_left f l' x)
  end.

Definition obtener_estadisticas (self : QuinielaDatabase)
  : M Server Resumen :=
  let vacio := mkResumen 0 None None in
  if negb (db_available self) then ret vacio
  else
    try_except
      (let! _ := call in (* _get_connection *)
       let! _ := call in (* cursor *)
       let! _ := call in (* SELECT COUNT *)
       let! rows := select_all in
       let! _ := call in (* fetchone *)
       let total := Z.of_nat (length rows) in
       let! _ := call in (* SELECT MIN, MAX *)
       let! rows := select_all in
       let! _ := call in (* fetchone *)
       let fechas := map fecha_generacion rows in
       let! _ := call in (* cur.close *)
       let! _ := call in (* conn.close *)
       ret (mkResumen total (agregado Z.min fechas) (agregado Z.max fechas)))
      (fun _ => ret vacio).

End Database.

(** ** The vocabulary of the specification *)

(** The three outcomes with their codes, as the specification lists them. *)
Definition outcome_codes : list (pystr * pystr) :=
  [ (u "Local", u "1"); (u "Empate", u "X"); (u "Visitante", u "2") ].

(** A slip for [partidos]: one line for each of the first 14 matches, in
    order, numbered from 1, with the names of the match and one of the
    three outcomes with its code. *)
Definition es_quiniela_de (partidos : list Partido) (q : list Resultado)
  : Prop :=
  length q = Nat.min (length partidos) 14 /\
  forall i p, partidos !! i = Some p -> i < 14 ->
    exists r, q !! i = Some r /\
      partido r = i + 1 /\
      res_local r = local p /\
      res_visitante r = visitante p /\
      (prediccion r, codigo r) ∈ outcome_codes.

(** What one iteration of a generation loop builds, whatever the draw. *)
Definition linea_de (ip : nat * Partido) (r : Resultado) : Prop :=
  partido r = fst ip + 1 /\
  res_local r = local (snd ip) /\
  res_visitante r = visitante (snd ip) /\
  (prediccion r, codigo r) ∈ outcome_codes.

(** The probability triple (Local, Empate, Visitante) of a bias, as the
    specification tabulates it; any other bias takes the triple of
    "local". *)
Definition spec_triple (bias : pystr) : float * float * float :=
  if decide (bias = u "visitante") then (f0_25, f0_25, f0_5)
  else if decide (bias = u "empate") then (f0_3, f0_4, f0_3)
  else (f0_5, f0_25, f0_25).

(** The selection rule of the specification: Local if [r < p(Local)], else
    Empate if [r < p(Local) + p(Empate)], else Visitante. *)
Definition spec_select (t : float * float * float) (r : float) : pystr :=
  match t with
  | (p_local, p_empate, _) =>
      if flt r p_local then u "Local"
      else if flt r (fadd p_local p_empate) then u "Empate"
      else u "Visitante"
  end.

(** The value [random.random()] returns on the [i]-th draw after [g]. *)
Definition random_at (g : Rng) (i : nat) : float :=
  float_of_draw (tape g (pos g + i)).

(** How many lines of a slip carry outcome [k]. *)
Definition apariciones (k : pystr) (quiniela : list Resultado) : nat :=
  length (filter (fun r => prediccion r = k) quiniela).

(** The percentage of the specification: count / total x 100. *)
Definition spec_pct (count total : nat) : float :=
  fmul (fdiv (float_of_Z (Z.of_nat count)) (float_of_Z (Z.of_nat total))) f100.

Definition suma (d : list (pystr * nat)) : nat := list_sum (map snd d).

(** The team names of a list of matches, home before away. *)
Definition equipos (ps : list Partido) : list pystr :=
  flat_map (fun p => [local p; visitante p]) ps.

Definition todos : list pystr :=
  Scraper.equipos_mexicanos ++ Scraper.equipos_internacionales.

(** What holds of the loop variables of [_generate_sample_partidos] after
    [n] iterations. *)
Record Inv (n : nat) (st : Scraper.Muestra) : Prop := mkInv {
  inv_todos : Scraper.todos_los_equipos st = todos;
  inv_size : size (Scraper.equipos_usados st) <= 2 * n;
  inv_length : length (Scraper.partidos st) = n;
  inv_usados : forall e, e ∈ equipos (Scraper.partidos st) ->
                 e ∈ Scraper.equipos_usados st;
  inv_nodup : NoDup (equipos (Scraper.partidos st));
  inv_pool : forall e, e ∈ equipos (Scraper.partidos st) -> e ∈ todos;
  inv_pares : forall i p, Scraper.partidos st !! i = Some p ->
                local p <> visitante p /\
                fecha p = Some (u "Jornada " ++ str_of_nat (i + 1))
}.

#[global] Instance Partido_eq_dec : EqDecision Partido.
Proof. solve_decision. Defined.

(** All the pairs the pattern finds in one group of elements, trimmed,
    valid or not. *)
Definition pares_de_grupo (pattern_group : list Scraper.Element)
  : list Partido :=
  flat_map Scraper.partidos_de_elemento pattern_group.

(** The pairs of the first group in which the pattern matches at all. *)
Fixpoint primer_grupo (patterns : list (list Scraper.Element))
  : list Partido :=
  match patterns with
  | [] => []
  | pattern_group :: rest =>
      match pares_de_grupo pattern_group with
      | [] => primer_grupo rest
      | p :: ps => p :: ps
      end
  end.

(** The specification's reading of structured extraction: the first 14
    distinct valid pairs of a group, and the first group that has a valid
    pair. *)
Definition spec_validos (ps : list Partido) : list Partido :=
  take 14 (remove_dups (filter (fun p => Scraper.es_valido p) ps)).

Fixpoint spec_scrape (patterns : list (list Scraper.Element))
  : list Partido :=
  match patterns with
  | [] => []
  | pattern_group :: rest =>
      match spec_validos (pares_de_grupo pattern_group) with
      | [] => spec_scrape rest
      | p :: ps => p :: ps
      end
  end.

(** A page with a table that reads "LA vs NY" and a paragraph that reads
    "Pumas vs Tigres": the tables, the elements with a matching class
    (none), and the text nodes that contain "vs". *)
Definition pagina0 : list (list Scraper.Element) :=
  [ [Scraper.Tag (u "LA vs NY")];
    [];
    [Scraper.NavigableString (u "LA vs NY");
     Scraper.NavigableString (u "Pumas vs Tigres")] ].

(** A page whose table lists the same match twice. *)
Definition pagina1 : list (list Scraper.Element) :=
  [ [Scraper.Tag (u "Pumas vs Tigres"); Scraper.Tag (u "Pumas vs Tigres")];
    [];
    [] ].

(** When [get_partidos] falls back on the synthetic list: the first
    strategy raised, or it returned nothing and the second one raised or
    returned nothing. *)
Definition recurre (primera segunda : M Rng (list Partido)) (g : Rng)
  : Prop :=
  match primera g with
  | (Raise _, _) => True
  | (Ok (_ :: _), _) => False
  | (Ok [], g1) =>
      match segunda g1 with
      | (Ok (_ :: _), _) => False
      | _ => True
      end
  end.

(** A server with one stored slip and a driver that never fails, and an
    environment without [DATABASE_URL]. *)
Definition servidor0 : Database.Server :=
  Database.mkServer [Database.mkRow 7 100 0 []] 8 101 (fun _ => false) 0.

Definition environ0 : list (pystr * pystr) := [(u "HOME", u "/root")].

(** Sample inputs used to run the model. *)
Definition g0 : Rng := mkRng (fun n => N.of_nat (n * n + 2 * n)) 0.

Definition partidos0 : list Partido :=
  [ mkPartido (u "América") (u "Chivas") None;
    mkPartido (u "Pumas") (u "León") (Some (u "Jornada 1")) ].

(** ** scraper.py: the information of the draw *)

Module Sorteo.

(** [date.weekday()] of the day with proleptic Gregorian ordinal [o]:
    Monday is 0 and Sunday is 6. *)
Definition weekday (o : Z) : Z := ((o + 6) mod 7)%Z.

(** The computation shared by [_extract_fecha_sorteo] and
    [_get_default_info]. *)
Definition dias_hasta_domingo (hoy : Z) : Z :=
  let d := ((6 - weekday hoy) mod 7)%Z in
  if (d =? 0)%Z then 7%Z else d.

(** [hoy + timedelta(days=dias_hasta_domingo)] *)
Definition proximo_domingo (hoy : Z) : Z := (hoy + dias_hasta_domingo hoy)%Z.

Record Info : Type := mkInfo {
  i_premios : pystr;
  i_fecha_sorteo : pystr;
  i_jornada : pystr;
  i_numero_sorteo : pystr
}.

(** [self.info_cache] as [__init__] leaves it. *)
Definition info_cache0 : list (pystr * option pystr) :=
  [ (u "premios", None); (u "fecha_sorteo", None); (u "jornada", None) ].

Definition premio_patterns : list pystr :=
  [ u "\$\s*[\d,]+(?:\.\d{2})?";
    u "[\d,]+\s*(?:millones?|mil)";
    u "premio.*?[\d,]+" ].

Definition fecha_patterns : list pystr :=
  [ u "\d{1,2}\s+de\s+\w+\s+de\s+\d{4}";
    u "\d{1,2}/\d{1,2}/\d{4}";
    u "sorteo.*?(\d{1,2}\s+\w+)" ].

Definition jornada_patterns : list pystr :=
  [ u "jornada\s*#?\s*(\d+)";
    u "concurso\s*#?\s*(\d+)";
    u "sorteo\s*#?\s*(\d+)" ].

Definition sorteo_patterns : list pystr :=
  [ u "sorteo\s*#?\s*(\d+)";
    u "número\s+de\s+sorteo:?\s*(\d+)" ].

Section Pagina.

(** Outside the repository: [re_findall p text] is
    [re.findall(p, text, re.I)] (every pattern has at most one group, so
    the matches are strings), and [strftime o] is [strftime('%d/%m/%Y')]
    of the day with ordinal [o]. *)
Variable re_findall : pystr -> pystr -> list pystr.
Variable strftime : Z -> pystr.

(** The loop shared by the four extractors:
    [for pattern in patterns: matches = re.findall(...); if matches: return ... matches[0]]. *)
Fixpoint primero (patterns : list pystr) (text : pystr) : option pystr :=
  match patterns with
  | [] => None
  | pattern :: rest =>
      match re_findall pattern text with
      | m :: _ => Some m
      | [] => primero rest text
      end
  end.

Definition _extract_premios (text : pystr) : pystr :=
  match primero premio_patterns text with
  | Some m => u "Premio estimado: " ++ m
  | None => u "Premio: Consultar página oficial"
  end.

Definition proximo_sorteo (hoy : Z) : pystr :=
  u "Próximo sorteo: " ++ strftime (proximo_domingo hoy).

Definition _extract_fecha_sorteo (hoy : Z) (text : pystr) : pystr :=
  match primero fecha_patterns text with
  | Some m => m
  | None => proximo_sorteo hoy
  end.

Definition _extract_jornada (text : pystr) : pystr :=
  match primero jornada_patterns text with
  | Some m => u "Jornada " ++ m
  | None => u "Jornada actual"
  end.

Definition _extract_numero_sorteo (text : pystr) : pystr :=
  match primero sorteo_patterns text with
  | Some m => m
  | None => u "N/A"
  end.

Definition _get_default_info (hoy : Z) : Info :=
  {| i_premios := u "Premio acumulado - Consultar página oficial";
     i_fecha_sorteo := proximo_sorteo hoy;
     i_jornada := u "Jornada actual";
     i_numero_sorteo := u "N/A" |}.

(** [for key, value in info.items(): self.info_cache[key] = value] *)
Definition cachear (info : Info) : M (list (pystr * option pystr)) unit :=
  fun cache =>
    let cache := dict_set cache (u "premios") (Some (i_premios info)) in
    let cache := dict_set cache (u "fecha_sorteo") (Some (i_fecha_sorteo info)) in
    let cache := dict_set cache (u "jornada") (Some (i_jornada info)) in
    let cache := dict_set cache (u "numero_sorteo") (Some (i_numero_sorteo info)) in
    (Ok tt, cache).

(** [get_info_sorteo]. [descarga] is what the download and [soup.get_text()]
    give (the text, or the exception raised), [hoy] the day of
    [datetime.now()]; the state is [self.info_cache]. *)
Definition get_info_sorteo (descarga : result pystr) (hoy : Z)
  : M (list (pystr * option pystr)) Info :=
  try_except
    (let! text := (fun cache => (descarga, cache)) in
     let info :=
       {| i_premios := _extract_premios text;
          i_fecha_sorteo := _extract_fecha_sorteo hoy text;
          i_jornada := _extract_jornada text;
          i_numero_sorteo := _extract_numero_sorteo text |} in
     let! _ := cachear info in
     ret info)
    (fun _ => ret (_get_default_info hoy)).

End Pagina.

End Sorteo.

(** ** image_exporter.py *)

Module ImageExporter.

Definition Color : Type := (Z * Z * Z)%type.

Definition width : Z := 800.
Definition header_height : Z := 120.
Definition row_height : Z := 50.
Definition footer_height : Z := 80.

Definition color_verde : Color := (46, 139, 87)%Z.
Definition color_blanco : Color := (255, 255, 255)%Z.
Definition color_gris_claro : Color := (240, 248, 255)%Z.
Definition color_gris : Color := (128, 128, 128)%Z.
Definition color_negro : Color := (0, 0, 0)%Z.

(** [str(n)] and [f"{n}"] for a Python [int]. *)
Definition str_of_Z (z : Z) : pystr :=
  if (z <? 0)%Z then u "-" ++ str_of_nat (Z.to_nat (- z))
  else str_of_nat (Z.to_nat z).

Section Pillow.

(** Outside the repository: the fonts ([truetype] raises when the file is
    missing), the metrics of a text, and the clock already formatted by
    [strftime("%d/%m/%Y %H:%M")]. *)
Variable Font : Type.
Variable truetype : pystr -> Z -> result Font.
Variable load_default : Font.
Variable textbbox : pystr -> Font -> Z * Z * Z * Z.
Variable fecha_texto : pystr.

(** The calls on [draw], in the order they are made. *)
Inductive Trazo : Type :=
  | Rectangle (x0 y0 x1 y1 : Z) (fill : Color) (outline : option Color)
  | Text (x y : Z) (text : pystr) (fill : Color) (font : Font)
  | Line (x0 y0 x1 y1 : Z) (fill : Color) (line_width : Z).

(** The image handed to [img.save]: its size, its background and what was
    drawn on it. The PNG encoding is not modelled. *)
Record Imagen : Type := mkImagen {
  ancho : Z;
  alto : Z;
  fondo : Color;
  trazos : list Trazo
}.

Definition dejavu : pystr := u "/usr/share/fonts/truetype/dejavu/DejaVuSans.ttf".
Definition dejavu_bold : pystr :=
  u "/usr/share/fonts/truetype/dejavu/DejaVuSans-Bold.ttf".

(** [try: f = ImageFont.truetype(path, size)  except: f = ImageFont.load_default()] *)
Definition fuente (path : pystr) (size : Z) : Font :=
  match truetype path size with
  | Ok f => f
  | Raise _ => load_default
  end.

(** [bbox[2] - bbox[0]] *)
Definition text_width (text : pystr) (font : Font) : Z :=
  match textbbox text font with
  | (x0, _, x1, _) => (x1 - x0)%Z
  end.

Definition _draw_header (numero_quiniela : Z) : list Trazo :=
  let font_titulo := fuente dejavu_bold 36 in
  let titulo := u "QUINIELA PROGOL #" ++ str_of_Z numero_quiniela in
  let x := ((width - text_width titulo font_titulo) / 2)%Z in
  let font_fecha := fuente dejavu 16 in
  let x' := ((width - text_width fecha_texto font_fecha) / 2)%Z in
  [ Rectangle 0 0 width header_height color_verde None;
    Text x 20 titulo color_blanco font_titulo;
    Text x' 75 fecha_texto color_blanco font_fecha ].

(** The texts of one row: the teams, cut to 25 characters each, and the
    prediction. *)
Definition equipos_texto (partido : Resultado) : pystr :=
  take 25 (res_local partido) ++ u " vs " ++ take 25 (res_visitante partido).

Definition prediccion_texto (partido : Resultado) : pystr :=
  simbolo partido ++ u " " ++ prediccion partido.

Definition _draw_partido (fila : Resultado) (y_offset : Z)
    (fondo_claro : bool) : list Trazo :=
  (if fondo_claro then
     [Rectangle 0 y_offset width (y_offset + row_height) color_gris_claro None]
   else []) ++
  let fonts :=
    match truetype dejavu 14 with
    | Ok f =>
        match truetype dejavu_bold 16 with
        | Ok fb => (f, fb)
        | Raise _ => (load_default, load_default)
        end
    | Raise _ => (load_default, load_default)
    end in
  let font := fst fonts in
  let font_bold := snd fonts in
  let w := text_width (prediccion_texto fila) font_bold in
  let x := (width - w - 30)%Z in
  [ Text 20 (y_offset + 15) (str_of_nat (partido fila))
      color_gris font_bold;
    Text 60 (y_offset + 15) (equipos_texto fila) color_negro font;
    Rectangle (x - 10) (y_offset + 10) (x + w + 10) (y_offset + 40)
      color_verde (Some color_verde);
    Text x (y_offset + 15) (prediccion_texto fila) color_blanco font_bold ].

(** [predicciones.get(k, 0)] after the counting loop of [_draw_footer]. *)
Definition cuenta (quiniela : list Resultado) (k : pystr) : nat :=
  default 0 (dict_get (QuinielaGenerator.contar quiniela) k).

Definition resumen (quiniela : list Resultado) : pystr :=
  u "Locales: " ++ str_of_nat (cuenta quiniela (u "Local"))
  ++ u " | Empates: " ++ str_of_nat (cuenta quiniela (u "Empate"))
  ++ u " | Visitantes: " ++ str_of_nat (cuenta quiniela (u "Visitante")).

Definition disclaimer : pystr :=
  u "Predicciones aleatorias - Solo para entretenimiento".

Definition _draw_footer (quiniela : list Resultado) (y_offset : Z)
  : list Trazo :=
  let font := fuente dejavu 14 in
  let x := ((width - text_width (resumen quiniela) font) / 2)%Z in
  let x' := ((width - text_width disclaimer font) / 2)%Z in
  [ Line 20 y_offset (width - 20) y_offset color_gris 2;
    Text x (y_offset + 20) (resumen quiniela) color_gris font;
    Text x' (y_offset + 45) disclaimer color_gris font ].

(** [for i, partido in enumerate(quiniela)], threading [y_offset]: the
    rows drawn and the offset after the last one. *)
Fixpoint filas (ips : list (nat * Resultado)) (y_offset : Z)
  : list Trazo * Z :=
  match ips with
  | [] => ([], y_offset)
  | (i, partido) :: rest =>
      let t := _draw_partido partido y_offset (i mod 2 =? 0) in
      let r := filas rest (y_offset + row_height) in
      (t ++ fst r, snd r)
  end.

Definition generar_imagen (quiniela : list Resultado) (numero_quiniela : Z)
  : Imagen :=
  let num_partidos := Z.of_nat (length quiniela) in
  let total_height :=
    (header_height + num_partidos * row_height + footer_height)%Z in
  let cabecera := _draw_header numero_quiniela in
  let r := filas (enumerate quiniela) header_height in
  let pie := _draw_footer quiniela (snd r) in
  mkImagen width total_height color_blanco (cabecera ++ fst r ++ pie).

End Pillow.

End ImageExporter.

(** ** app.py *)

Module App.

(** The generator and the store each work on their own part of the
    world. *)
Record Mundo : Type := mkMundo {
  rng : Rng;
  servidor : Database.Server
}.

Definition con_rng {A} (c : M Rng A) : M Mundo A :=
  fun w =>
    match c (rng w) with
    | (r, g') => (r, mkMundo g' (servidor w))
    end.

Definition con_db {A} (c : M Database.Server A) : M Mundo A :=
  fun w =>
    match c (servidor w) with
    | (r, srv') => (r, mkMundo (rng w) srv')
    end.

(** The two lists of [st.session_state] the handlers read and write. *)
Record Session : Type := mkSession {
  s_partidos : list Partido;
  s_quinielas : list (list Resultado)
}.

(** What a handler shows: which of [st.success], [st.warning] and
    [st.error] it calls, with the numbers its message carries. *)
Inductive Aviso : Type :=
  | PrimeroActualiza
  | GeneradasYGuardadas (num_quinielas : Z)
  | SoloGuardadas (num_quinielas : Z) (guardadas : nat)
  | NoGuardadas (num_quinielas : Z)
  | PartidosObtenidos (n : nat)
  | NoSePudieron
  | ErrorAlObtener (e : exn).

(** [needle in hay] on strings. *)
Fixpoint contiene (needle hay : pystr) : bool :=
  Scraper.starts_with needle hay ||
  match hay with
  | [] => false
  | _ :: hay' => contiene needle hay'
  end.

(** The truth value of what [guardar_quiniela] returns. *)
Definition guardada (r : option Z) : bool :=
  match r with
  | Some i => negb (i =? 0)%Z
  | None => false
  end.

(** The block under the button "Generar Quinielas". *)
Definition al_generar (db : Database.QuinielaDatabase) (s : Session)
    (num_quinielas : Z) (modo_generacion : pystr)
  : M Mundo (Session * Aviso) :=
  match s_partidos s with
  | [] => ret (s, PrimeroActualiza)
  | _ :: _ =>
      let! quinielas :=
        if contiene (u "Aleatorio") modo_generacion then
          con_rng (QuinielaGenerator.generar_quinielas (s_partidos s)
                     num_quinielas)
        else
          mapM (fun _ : nat =>
                  con_rng (QuinielaGenerator.generar_quiniela_con_tendencia
                             (s_partidos s) (u "local")))
               (range num_quinielas) in
      let s' := mkSession (s_partidos s) quinielas in
      let! guardadas :=
        Scraper.foldM
          (fun (guardadas : nat) quiniela =>
             let! r := con_db (Database.guardar_quiniela db quiniela) in
             ret (if guardada r then guardadas + 1 else guardadas))
          quinielas 0 in
      ret (s',
           if (Z.of_nat guardadas =? num_quinielas)%Z then
             GeneradasYGuardadas num_quinielas
           else if 0 <? guardadas then SoloGuardadas num_quinielas guardadas
           else NoGuardadas num_quinielas)
  end.

(** The block under the button "Actualizar Partidos", over the resolver
    of [self.scraper]. *)
Definition al_actualizar (get_partidos : M Rng (list Partido)) (s : Session)
  : M Mundo (Session * Aviso) :=
  try_except
    (let! partidos := con_rng get_partidos in
     match partidos with
     | _ :: _ =>
         ret (mkSession partidos (s_quinielas s),
              PartidosObtenidos (length partidos))
     | [] => ret (s, NoSePudieron)
     end)
    (fun e => ret (s, ErrorAlObtener e)).

End App.

(** ** More vocabulary *)

(** The driver does not fail during the next [n] calls. *)
Definition sin_fallos (n : nat) (srv : Database.Server) : Prop :=
  forall k, k < n ->
    Database.faults srv (Database.calls srv + k) = false.

(** The identifiers of the table are pairwise distinct and below the next
    value of the sequence, as [SERIAL PRIMARY KEY] keeps them. *)
Definition ids_bien (srv : Database.Server) : Prop :=
  NoDup (map Database.id (Database.quinielas srv)) /\
  forall r, r ∈ Database.quinielas srv ->
    (Database.id r < Database.quinielas_id_seq srv)%Z.

(** Newest first. *)
Definition mas_reciente (a b : Database.Row) : Prop :=
  (Database.fecha_generacion b <= Database.fecha_generacion a)%Z.

(** A match as both strategies accept it. *)
Definition partido_valido (p : Partido) : Prop :=
  2 < length (local p) /\ 2 < length (visitante p) /\
  local p <> visitante p.

(** The vertical extent of a call on [draw]; a text counts by its
    anchor. *)
Definition entre {Font} (lo hi : Z) (t : ImageExporter.Trazo Font) : Prop :=
  match t with
  | ImageExporter.Rectangle _ _ y0 _ y1 _ _ => (lo <= y0 /\ y0 <= y1 /\ y1 <= hi)%Z
  | ImageExporter.Text _ _ y _ _ _ => (lo <= y /\ y < hi)%Z
  | ImageExporter.Line _ _ y0 _ y1 _ _ => (lo <= y0 /\ y0 <= y1 /\ y1 <= hi)%Z
  end.

(** The outcomes with their codes and glyphs, as the generator's table
    holds them. *)
Definition outcome_rows : list (pystr * (pystr * pystr)) :=
  [ (u "Local", (u "1", u "🏠")); (u "Empate", (u "X", u "🤝"));
    (u "Visitante", (u "2", u "✈️")) ].

(** What holds of the line built for a match once the outcome key is one
    of the table. *)
Definition linea_completa (ip : nat * Partido) (r : Resultado) : Prop :=
  linea_de ip r /\
  res_fecha r = default (u "Sin fecha") (fecha (snd ip)) /\
  (prediccion r, (codigo r, simbolo r)) ∈ outcome_rows.

(** A string with no white space at either end. *)
Definition sin_espacio_inicial (s : pystr) : Prop :=
  match s with
  | [] => True
  | c :: _ => Scraper.isspace c = false
  end.

Definition recortado (s : pystr) : Prop :=
  sin_espacio_inicial s /\ sin_espacio_inicial (rev s).

(** A match as the two scraping strategies return it. *)
Definition partido_extraido (p : Partido) : Prop :=
  partido_valido p /\ recortado (local p) /\ recortado (visitante p) /\
  fecha p = Some Scraper.proxima_jornada.

(** The state of one iteration of [_generate_sample_partidos] in which
    fewer than two names are unused. *)
Definition agotado (st : Scraper.Muestra) : bool :=
  length (filter (fun e => e ∉ Scraper.equipos_usados st)
            (Scraper.todos_los_equipos st)) <? 2.

(** The patterns [get_info_sorteo] searches for, all four extractors
    together. *)
Definition patrones : list pystr :=
  Sorteo.premio_patterns ++ Sorteo.fecha_patterns
  ++ Sorteo.jornada_patterns ++ Sorteo.sorteo_patterns.

(** Sample behaviours of [re.findall]: a page where only the pattern of
    the draw number matches; and a page such as "Progol", without digits
    and without the words of the patterns, where the patterns of the
    source find nothing while the empty pattern matches at every
    position. *)
Definition findall_solo_sorteo (pattern text : pystr) : list pystr :=
  if decide (pattern = u "sorteo\s*#?\s*(\d+)") then [u "2301"] else [].

Definition findall_progol (pattern text : pystr) : list pystr :=
  if decide (pattern = []) then replicate (Datatypes.S (length text)) []
  else [].

Definition strftime0 (o : Z) : pystr := ImageExporter.str_of_Z o.

(** Sample inputs for the handlers of the page. *)
Definition mundo0 : App.Mundo := App.mkMundo g0 servidor0.

Definition sesion0 : App.Session := App.mkSession partidos0 [].

Definition bd_activa : Database.QuinielaDatabase :=
  Database.mkDb (Some (u "postgres://db")) true.

Definition bd_inactiva : Database.QuinielaDatabase := Database.mkDb None false.

(** * Properties *)

(** ** The monad and the loops *)

Section Loops.
Context {S A B : Type}.

Lemma mapM_ok (f : A -> M S B) (P : A -> B -> Prop) (l : list A) :
  (forall x s, x ∈ l -> exists y s', f x s = (Ok y, s') /\ P x y) ->
  forall s, exists ys s', mapM f l s = (Ok ys, s') /\ Forall2 P l ys.
Proof.
  induction l as [|x l IH]; intros Hf s.
  - exists [], s. split; [reflexivity | constructor].
  - destruct (Hf x s) as (y & s1 & Hy & HP); [left |].
    destruct (IH (fun x' s' Hx => Hf x' s' (list_elem_of_further _ _ _ Hx)) s1)
      as (ys & s2 & Hys & HF).
    exists (y :: ys), s2. split.
    + cbn. unfold bind at 1. rewrite Hy. unfold bind at 1. rewrite Hys.
      reflexivity.
    + constructor; assumption.
Qed.

End Loops.

Lemma enumerate_from_lookup {A} (l : list A) (n i : nat) (p : A) :
  l !! i = Some p -> combine (seq n (length l)) l !! i = Some (n + i, p).
Proof.
  revert n i. induction l as [|x l IH]; intros n i H; [discriminate |].
  destruct i as [|i].
  - inversion H; subst. cbn. do 2 f_equal. lia.
  - change (combine (seq (Datatypes.S n) (length l)) l !! i
            = Some (n + Datatypes.S i, p)).
    rewrite (IH (Datatypes.S n) i H). do 2 f_equal. lia.
Qed.

Lemma enumerate_lookup {A} (l : list A) (i : nat) (p : A) :
  l !! i = Some p -> enumerate l !! i = Some (i, p).
Proof. intros H. apply (enumerate_from_lookup l 0 i p H). Qed.

Lemma enumerate_length {A} (l : list A) : length (enumerate l) = length l.
Proof.
  unfold enumerate. rewrite length_combine, length_seq. lia.
Qed.

(** ** The slip generator *)

Import QuinielaGenerator.

Lemma choice_keys (g : Rng) :
  exists k, choice (keys predicciones) g = (Ok k, advance 1 g) /\
    k ∈ keys predicciones.
Proof.
  unfold choice, keys, bind, _randbelow, ret. cbn [map length fst predicciones].
  pose proof (Nat.mod_upper_bound (N.to_nat (draw g)) 3 ltac:(lia)) as Hlt.
  destruct (N.to_nat (draw g) mod 3) as [|[|[|n]]]; [| | | lia];
    eexists; (split; [reflexivity |]);
    change (keys predicciones) with [u "Local"; u "Empate"; u "Visitante"];
    first [left | right; left | right; right; left].
Qed.

Lemma resultado_key (i : nat) (p : Partido) (k : pystr) (g : Rng) :
  k ∈ keys predicciones ->
  exists r, resultado i p k g = (Ok r, g) /\ prediccion r = k /\
    linea_de (i, p) r.
Proof.
  intros Hk.
  change (keys predicciones) with [u "Local"; u "Empate"; u "Visitante"] in Hk.
  apply elem_of_cons in Hk as [-> | Hk];
    [| apply elem_of_cons in Hk as [-> | Hk];
       [| apply elem_of_cons in Hk as [-> | Hk]; [| inversion Hk]]];
    (eexists; split; [reflexivity |]; split; [reflexivity |]);
    (split; [reflexivity |]; split; [reflexivity |]; split; [reflexivity |]);
    unfold outcome_codes;
    first [left | right; left | right; right; left].
Qed.

Lemma linea_de_quiniela (partidos : list Partido) (q : list Resultado) :
  Forall2 linea_de (enumerate (take 14 partidos)) q ->
  es_quiniela_de partidos q.
Proof.
  intros HF. split.
  - rewrite <- (Forall2_length _ _ _ HF), enumerate_length, length_take. lia.
  - intros i p Hp Hi.
    assert (He : enumerate (take 14 partidos) !! i = Some (i, p)).
    { apply enumerate_lookup. rewrite lookup_take_lt by exact Hi. exact Hp. }
    destruct (Forall2_lookup_l _ _ _ _ _ HF He) as (r & Hr & H1 & H2 & H3 & H4).
    exists r. repeat split; assumption.
Qed.

Lemma _generar_quiniela_individual_ok (partidos : list Partido) (g : Rng) :
  exists q g', _generar_quiniela_individual partidos g = (Ok q, g') /\
    es_quiniela_de partidos q.
Proof.
  unfold _generar_quiniela_individual.
  edestruct (mapM_ok
    (fun ip : nat * Partido =>
       let! prediccion_key := choice (keys predicciones) in
       resultado (fst ip) (snd ip) prediccion_key)
    linea_de (enumerate (take 14 partidos))) as (q & g' & Hq & HF).
  - intros [i p] s _. destruct (choice_keys s) as (k & Hc & Hk).
    destruct (resultado_key i p k (advance 1 s) Hk) as (r & Hr & _ & HL).
    exists r, (advance 1 s). split; [| exact HL].
    unfold bind. rewrite Hc. exact Hr.
  - exists q, g'. split; [exact Hq | apply linea_de_quiniela, HF].
Qed.

(** C1. [generar_quinielas(M, k)] with [k >= 0] always returns: the empty
    list when [M] is empty, and otherwise exactly [k] slips, each with one
    line for each of the first [min(|M|, 14)] matches, the i-th line
    carrying [partido = i], the names of the i-th match, and one of Local,
    Empate, Visitante with its code 1, X, 2. *)
Theorem generar_quinielas_spec
    (partidos : list Partido) (cantidad : Z) (g : Rng) :
  (0 <= cantidad)%Z ->
  exists qs g', generar_quinielas partidos cantidad g = (Ok qs, g') /\
    (partidos = [] -> qs = []) /\
    (partidos <> [] ->
       Z.of_nat (length qs) = cantidad /\
       Forall (es_quiniela_de partidos) qs).
Proof.
  intros Hk. unfold generar_quinielas.
  destruct partidos as [|p ps].
  - exists [], g. split; [reflexivity |].
    split; [reflexivity | intros H; destruct (H eq_refl)].
  - set (M := p :: ps).
    destruct (mapM_ok (fun _ : nat => _generar_quiniela_individual M)
                (fun _ q => es_quiniela_de M q) (range cantidad)
                (fun _ s _ => _generar_quiniela_individual_ok M s) g)
      as (qs & g' & Hqs & HF).
    exists qs, g'. split; [exact Hqs |]. split; [discriminate |].
    intros _. split.
    + rewrite <- (Forall2_length _ _ _ HF). unfold range.
      rewrite length_seq. lia.
    + clear Hqs. revert HF. generalize (range cantidad).
      intros l HF. induction HF; constructor; assumption.
Qed.

Lemma generar_quinielas_spec_witness :
  exists qs g', generar_quinielas partidos0 2 g0 = (Ok qs, g') /\
    (partidos0 = [] -> qs = []) /\
    (partidos0 <> [] ->
       Z.of_nat (length qs) = 2%Z /\
       Forall (es_quiniela_de partidos0) qs).
Proof. apply (generar_quinielas_spec partidos0 2 g0). lia. Defined.

(** A loop whose body consumes exactly one draw: the [i]-th value built
    depends on the [i]-th draw only. *)
Lemma mapM_draws {A B} (f : A -> M Rng B) (P : A -> N -> B -> Prop) :
  (forall x g, exists y, f x g = (Ok y, advance 1 g) /\ P x (draw g) y) ->
  forall l g, exists ys,
    mapM f l g = (Ok ys, advance (length l) g) /\
    length ys = length l /\
    forall i x y, l !! i = Some x -> ys !! i = Some y ->
      P x (tape g (pos g + i)) y.
Proof.
  intros Hf. induction l as [|x l IH]; intros g.
  - exists []. split; [| split; [reflexivity | intros i x y H; discriminate]].
    cbn. unfold ret, advance. destruct g as [t n]. cbn.
    rewrite Nat.add_0_r. reflexivity.
  - destruct (Hf x g) as (y & Hy & HP).
    destruct (IH (advance 1 g)) as (ys & Hys & Hlen & Hall).
    exists (y :: ys). split; [| split].
    + cbn. unfold bind at 1. rewrite Hy. unfold bind at 1. rewrite Hys.
      unfold ret, advance. cbn. do 2 f_equal. lia.
    + cbn. rewrite Hlen. reflexivity.
    + intros [|i] x' y' Hx' Hy'.
      * inversion Hx'; inversion Hy'; subst.
        rewrite Nat.add_0_r. exact HP.
      * specialize (Hall i x' y' Hx' Hy'). cbn in Hall.
        replace (pos g + Datatypes.S i) with (pos g + 1 + i) by lia.
        exact Hall.
Qed.

Lemma elegir_three (pl pe pv r : float) (g : Rng) :
  elegir [(u "Local", pl); (u "Empate", pe); (u "Visitante", pv)] r g
  = (Ok (spec_select (pl, pe, pv) r), g).
Proof.
  unfold elegir, spec_select, bind, dict_item.
  change (dict_get [(u "Local", pl); (u "Empate", pe); (u "Visitante", pv)]
            (u "Local")) with (Some pl).
  change (dict_get [(u "Local", pl); (u "Empate", pe); (u "Visitante", pv)]
            (u "Empate")) with (Some pe).
  unfold ret. destruct (flt r pl); [reflexivity |].
  destruct (flt r (fadd pl pe)); reflexivity.
Qed.

(** The thresholds of Empate, as binary64 sums: 0.75, 0.5 and 0.7. *)
Example umbrales_empate :
  fadd f0_5 f0_25 = f0_75 /\ fadd f0_25 f0_25 = f0_5 /\
  fadd f0_3 f0_4 = f0_7.
Proof. vm_compute. repeat split. Qed.

Lemma spec_select_key (t : float * float * float) (r : float) :
  spec_select t r ∈ keys predicciones.
Proof.
  destruct t as [[pl pe] pv]. unfold spec_select, keys. cbn [map predicciones fst].
  destruct (flt r pl); [set_solver |].
  destruct (flt r (fadd pl pe)); set_solver.
Qed.

(** The triple the code looks up for a bias is the tabulated one. *)
Lemma prob_de_tendencia (tendencia : pystr) :
  default [(u "Local", f0_5); (u "Empate", f0_25); (u "Visitante", f0_25)]
    (dict_get probabilidades tendencia)
  = match spec_triple tendencia with
    | (pl, pe, pv) =>
        [(u "Local", pl); (u "Empate", pe); (u "Visitante", pv)]
    end.
Proof.
  unfold spec_triple, probabilidades, dict_get.
  destruct (decide (u "local" = tendencia)) as [<- | H1]; [reflexivity |].
  destruct (decide (u "visitante" = tendencia)) as [<- | H2]; [reflexivity |].
  destruct (decide (u "empate" = tendencia)) as [<- | H3]; [reflexivity |].
  destruct (decide (tendencia = u "visitante")); [congruence |].
  destruct (decide (tendencia = u "empate")); [congruence |].
  reflexivity.
Qed.

(** C3. For a bias other than "equilibrada": the table of the code holds,
    for "local", "visitante" and "empate" and for no other bias, the
    triples (0.5, 0.25, 0.25), (0.25, 0.25, 0.5) and (0.3, 0.4, 0.3) over
    Local, Empate, Visitante, each adding up to 1.0; what the code looks
    up for the bias is the tabulated triple of that bias, the one of
    "local" for an unrecognised bias; and the outcome of the i-th match is
    chosen from the i-th draw [r] by the rule: Local if [r < p(Local)],
    else Empate if [r < p(Local) + p(Empate)], else Visitante. *)
Theorem generar_quiniela_con_tendencia_spec
    (partidos : list Partido) (tendencia : pystr) (g : Rng) :
  tendencia <> u "equilibrada" ->
  let t := spec_triple tendencia in
  let n := Nat.min (length partidos) 14 in
  dict_get probabilidades (u "local")
    = Some [(u "Local", f0_5); (u "Empate", f0_25); (u "Visitante", f0_25)] /\
  dict_get probabilidades (u "visitante")
    = Some [(u "Local", f0_25); (u "Empate", f0_25); (u "Visitante", f0_5)] /\
  dict_get probabilidades (u "empate")
    = Some [(u "Local", f0_3); (u "Empate", f0_4); (u "Visitante", f0_3)] /\
  keys probabilidades = [u "local"; u "visitante"; u "empate"] /\
  (tendencia ∉ [u "local"; u "visitante"; u "empate"] ->
     dict_get probabilidades tendencia = None) /\
  (forall nombre prob, (nombre, prob) ∈ probabilidades ->
     exists pl pe pv,
       prob = [(u "Local", pl); (u "Empate", pe); (u "Visitante", pv)] /\
       fadd (fadd pl pe) pv = f1_0) /\
  (exists por_defecto,
     dict_get probabilidades (u "local") = Some por_defecto /\
     default por_defecto (dict_get probabilidades tendencia)
     = [(u "Local", fst (fst t)); (u "Empate", snd (fst t));
        (u "Visitante", snd t)]) /\
  t ∈ [ (f0_5, f0_25, f0_25); (f0_25, f0_25, f0_5); (f0_3, f0_4, f0_3) ] /\
  (tendencia = u "local" -> t = (f0_5, f0_25, f0_25)) /\
  (tendencia = u "visitante" -> t = (f0_25, f0_25, f0_5)) /\
  (tendencia = u "empate" -> t = (f0_3, f0_4, f0_3)) /\
  (tendencia ∉ [u "local"; u "visitante"; u "empate"] ->
     t = (f0_5, f0_25, f0_25)) /\
  fadd (fadd (fst (fst t)) (snd (fst t))) (snd t) = f1_0 /\
  exists q,
    generar_quiniela_con_tendencia partidos tendencia g
      = (Ok q, advance n g) /\
    length q = n /\
    forall i r, q !! i = Some r ->
      prediccion r = spec_select t (random_at g i).
Proof.
  intros Hne t n.
  split; [reflexivity |]. split; [reflexivity |]. split; [reflexivity |].
  split; [reflexivity |].
  split.
  { intros Hn. rewrite !not_elem_of_cons in Hn.
    destruct Hn as (H1 & H2 & H3 & _).
    unfold probabilidades, dict_get.
    rewrite !decide_False by congruence. reflexivity. }
  split.
  { intros nombre prob Hin. unfold probabilidades in Hin.
    apply elem_of_cons in Hin as [Hin | Hin];
      [| apply elem_of_cons in Hin as [Hin | Hin];
         [| apply elem_of_cons in Hin as [Hin | Hin]; [| inversion Hin]]];
      inversion Hin; subst; eexists _, _, _;
      (split; [reflexivity | vm_compute; reflexivity]). }
  split.
  { eexists. split; [reflexivity |].
    rewrite prob_de_tendencia. fold t. destruct t as [[pl pe] pv].
    reflexivity. }
  split; [| split; [| split; [| split; [| split; [| split]]]]].
  - subst t. unfold spec_triple. repeat case_decide; set_solver.
  - intros ->. reflexivity.
  - intros ->. reflexivity.
  - intros ->. reflexivity.
  - intros Hn. subst t. unfold spec_triple.
    repeat case_decide; subst; try reflexivity; exfalso; apply Hn; set_solver.
  - subst t. unfold spec_triple. repeat case_decide; vm_compute; reflexivity.
  - unfold generar_quiniela_con_tendencia.
    destruct (decide (tendencia = u "equilibrada")) as [E | _]; [contradiction |].
    unfold bind at 1.
    change (dict_item probabilidades (u "local") g)
      with (Ok [(u "Local", f0_5); (u "Empate", f0_25); (u "Visitante", f0_25)], g).
    cbv beta iota. rewrite prob_de_tendencia. fold t.
    destruct t as [[pl pe] pv] eqn:Et.
    edestruct (mapM_draws
      (fun ip : nat * Partido =>
         let! rand_val := random in
         let! prediccion_key :=
           elegir [(u "Local", pl); (u "Empate", pe); (u "Visitante", pv)]
             rand_val in
         resultado (fst ip) (snd ip) prediccion_key)
      (fun _ d r => prediccion r = spec_select (pl, pe, pv) (float_of_draw d)))
      as (q & Hq & Hlen & Hall).
    + intros [i p] s. unfold bind at 1, random at 1. unfold bind at 1.
      rewrite elegir_three.
      destruct (resultado_key i p _ (advance 1 s)
                  (spec_select_key (pl, pe, pv) (float_of_draw (draw s))))
        as (r & Hr & Hk & _).
      exists r. split; [exact Hr | exact Hk].
    + exists q. rewrite Hq, Hlen, enumerate_length, length_take.
      replace (Nat.min 14 (length partidos)) with n by (subst n; lia).
      split; [reflexivity |]. split; [reflexivity |].
      intros i r Hi.
      assert (Hlt : i < length (enumerate (take 14 partidos))).
      { rewrite <- Hlen. apply lookup_lt_Some in Hi. exact Hi. }
      apply lookup_lt_is_Some in Hlt as [x Hx].
      exact (Hall i x r Hx Hi).
Qed.

Lemma generar_quiniela_con_tendencia_spec_witness :
  let t := spec_triple (u "empate") in
  let n := Nat.min (length partidos0) 14 in
  dict_get probabilidades (u "local")
    = Some [(u "Local", f0_5); (u "Empate", f0_25); (u "Visitante", f0_25)] /\
  dict_get probabilidades (u "visitante")
    = Some [(u "Local", f0_25); (u "Empate", f0_25); (u "Visitante", f0_5)] /\
  dict_get probabilidades (u "empate")
    = Some [(u "Local", f0_3); (u "Empate", f0_4); (u "Visitante", f0_3)] /\
  keys probabilidades = [u "local"; u "visitante"; u "empate"] /\
  ((u "empate") ∉ [u "local"; u "visitante"; u "empate"] ->
     dict_get probabilidades (u "empate") = None) /\
  (forall nombre prob, (nombre, prob) ∈ probabilidades ->
     exists pl pe pv,
       prob = [(u "Local", pl); (u "Empate", pe); (u "Visitante", pv)] /\
       fadd (fadd pl pe) pv = f1_0) /\
  (exists por_defecto,
     dict_get probabilidades (u "local") = Some por_defecto /\
     default por_defecto (dict_get probabilidades (u "empate"))
     = [(u "Local", fst (fst t)); (u "Empate", snd (fst t));
        (u "Visitante", snd t)]) /\
  t ∈ [ (f0_5, f0_25, f0_25); (f0_25, f0_25, f0_5); (f0_3, f0_4, f0_3) ] /\
  ((u "empate") = u "local" -> t = (f0_5, f0_25, f0_25)) /\
  ((u "empate") = u "visitante" -> t = (f0_25, f0_25, f0_5)) /\
  ((u "empate") = u "empate" -> t = (f0_3, f0_4, f0_3)) /\
  ((u "empate") ∉ [u "local"; u "visitante"; u "empate"] ->
     t = (f0_5, f0_25, f0_25)) /\
  fadd (fadd (fst (fst t)) (snd (fst t))) (snd t) = f1_0 /\
  exists q,
    generar_quiniela_con_tendencia partidos0 (u "empate") g0
      = (Ok q, advance n g0) /\
    length q = n /\
    forall i r, q !! i = Some r ->
      prediccion r = spec_select t (random_at g0 i).
Proof.
  apply (generar_quiniela_con_tendencia_spec partidos0 (u "empate") g0).
  vm_compute. discriminate.
Defined.

(** ** Statistics of a slip *)

Lemma mapM_pure {S A B} (f : A -> M S B) (h : A -> B) (l : list A) (s : S) :
  (forall x, x ∈ l -> f x s = (Ok (h x), s)) ->
  mapM f l s = (Ok (map h l), s).
Proof.
  induction l as [|x l IH]; intros Hf; [reflexivity |].
  cbn. unfold bind at 1. rewrite Hf by left.
  unfold bind at 1. rewrite IH; [reflexivity |].
  intros y Hy. apply Hf. right. exact Hy.
Qed.

Section Dict.
Context {V : Type}.
Implicit Types (d : list (pystr * V)) (k : pystr) (v : V).

Lemma dict_get_set_eq d k v : dict_get (dict_set d k v) k = Some v.
Proof.
  induction d as [|[k' v'] d IH]; cbn.
  - rewrite decide_True by reflexivity. reflexivity.
  - destruct (decide (k' = k)) as [-> | Hne]; cbn.
    + rewrite decide_True by reflexivity. reflexivity.
    + rewrite decide_False by exact Hne. exact IH.
Qed.

Lemma dict_get_set_ne d k k' v :
  k <> k' -> dict_get (dict_set d k v) k' = dict_get d k'.
Proof.
  intros Hne. induction d as [|[k0 v0] d IH]; cbn.
  - rewrite decide_False by exact Hne. reflexivity.
  - destruct (decide (k0 = k)) as [-> | H0]; cbn.
    + rewrite !decide_False by exact Hne. reflexivity.
    + destruct (decide (k0 = k')); [reflexivity | exact IH].
Qed.

Lemma dict_get_None d k : dict_get d k = None <-> k ∉ keys d.
Proof.
  induction d as [|[k' v'] d IH]; cbn.
  - split; [intros _ H; inversion H | reflexivity].
  - destruct (decide (k' = k)) as [-> | Hne].
    + split; [discriminate | intros H; exfalso; apply H; left].
    + rewrite IH. unfold keys. rewrite not_elem_of_cons. split.
      * intros H. split; [congruence | exact H].
      * intros [_ H]. exact H.
Qed.

Lemma keys_dict_set d k v :
  keys (dict_set d k v)
  = if decide (k ∈ keys d) then keys d else keys d ++ [k].
Proof.
  induction d as [|[k' v'] d IH]; cbn.
  - rewrite decide_False; [reflexivity | intros H; inversion H].
  - destruct (decide (k' = k)) as [-> | Hne]; cbn.
    + rewrite decide_True by left. reflexivity.
    + fold (keys d). fold (keys (dict_set d k v)). rewrite IH.
      destruct (decide (k ∈ keys d)) as [Hin | Hout].
      * rewrite decide_True by (right; exact Hin). reflexivity.
      * rewrite decide_False; [reflexivity |].
        rewrite not_elem_of_cons. split; [congruence | exact Hout].
Qed.

Lemma dict_get_elem d k v :
  NoDup (keys d) -> (k, v) ∈ d -> dict_get d k = Some v.
Proof.
  induction d as [|[k' v'] d IH]; intros Hnd Hin; [inversion Hin |].
  cbn in Hnd. apply NoDup_cons in Hnd as [Hk' Hnd].
  apply elem_of_cons in Hin as [Heq | Hin]; cbn.
  - inversion Heq; subst. rewrite decide_True by reflexivity. reflexivity.
  - destruct (decide (k' = k)) as [-> | Hne]; [| apply IH; assumption].
    exfalso. apply Hk'. unfold keys.
    apply (list_elem_of_fmap_2 fst _ _ Hin).
Qed.

End Dict.

Lemma suma_dict_set (d : list (pystr * nat)) (k : pystr) (v : nat) :
  suma (dict_set d k v) + default 0 (dict_get d k) = suma d + v.
Proof.
  unfold suma. induction d as [|[k' v'] d IH]; [cbn; lia |].
  cbn [dict_set dict_get]. destruct (decide (k' = k)).
  - cbn. lia.
  - unfold list_sum in *. cbn [map snd fold_right]. lia.
Qed.

(** The invariant of the counting loop, from any dictionary [d]. *)
Lemma contar_desde (l : list Resultado) (d : list (pystr * nat)) :
  let d' :=
    fold_left
      (fun d r => dict_set d (prediccion r)
                    (default 0 (dict_get d (prediccion r)) + 1)) l d in
  (NoDup (keys d) -> NoDup (keys d')) /\
  suma d' = suma d + length l /\
  (forall k, k ∈ keys d' <-> k ∈ keys d \/ exists r, r ∈ l /\ prediccion r = k) /\
  (forall k, default 0 (dict_get d' k)
             = default 0 (dict_get d k) + apariciones k l).
Proof.
  revert d. induction l as [|r l IH]; intros d; cbn zeta.
  - cbn [fold_left length]. split; [tauto |]. split; [lia |]. split.
    + intros k. split; [tauto |].
      intros [H | (r & Hr & _)]; [exact H | inversion Hr].
    + intros k. unfold apariciones. cbn. lia.
  - cbn [fold_left].
    set (d1 := dict_set d (prediccion r)
                 (default 0 (dict_get d (prediccion r)) + 1)).
    destruct (IH d1) as (Hnd & Hsum & Hkeys & Hcnt).
    pose proof (keys_dict_set d (prediccion r)
                  (default 0 (dict_get d (prediccion r)) + 1)) as Hk1.
    fold d1 in Hk1.
    split; [| split; [| split]].
    + intros H. apply Hnd. rewrite Hk1. case_decide; [exact H |].
      apply NoDup_app. split; [exact H |]. split.
      * intros x Hx Hx'. apply list_elem_of_singleton in Hx'. subst. tauto.
      * apply NoDup_singleton.
    + rewrite Hsum. subst d1.
      pose proof (suma_dict_set d (prediccion r)
                    (default 0 (dict_get d (prediccion r)) + 1)).
      cbn [length]. lia.
    + intros k. rewrite Hkeys, Hk1. split.
      * intros [H | (r' & Hr' & Hp)].
        -- case_decide; [left; exact H |].
           apply elem_of_app in H as [H | H]; [left; exact H |].
           apply list_elem_of_singleton in H. right. exists r.
           split; [left | congruence].
        -- right. exists r'. split; [right; exact Hr' | exact Hp].
      * intros [H | (r' & Hr' & Hp)].
        -- left. case_decide; [exact H | apply elem_of_app; left; exact H].
        -- apply elem_of_cons in Hr' as [-> | Hr'].
           ++ left. subst k. case_decide; [assumption |].
              apply elem_of_app. right. apply list_elem_of_singleton.
              reflexivity.
           ++ right. exists r'. split; assumption.
    + intros k. rewrite Hcnt. subst d1. unfold apariciones.
      rewrite filter_cons.
      destruct (decide (prediccion r = k)) as [E | E].
      * rewrite E, dict_get_set_eq. cbn. lia.
      * rewrite dict_get_set_ne by exact E. lia.
Qed.

(** The function returns for every slip, and what it returns. *)
Lemma calcular_estadisticas_quiniela_ok {S} (quiniela : list Resultado) (s : S) :
  calcular_estadisticas_quiniela quiniela s
  = (Ok {| total_partidos := length quiniela;
           est_predicciones := contar quiniela;
           porcentajes :=
             map (fun kc => (fst kc, spec_pct (snd kc) (length quiniela)))
               (contar quiniela) |}, s).
Proof.
  unfold calcular_estadisticas_quiniela, bind.
  rewrite (mapM_pure _
    (fun kc : pystr * nat => (fst kc, spec_pct (snd kc) (length quiniela)))).
  - reflexivity.
  - intros [k c] Hin. destruct quiniela as [|r l]; [inversion Hin |].
    reflexivity.
Qed.

(** C5. For every slip [S] the function returns: the total is [len(S)];
    the counts add up to [len(S)]; the keys of the counts are exactly the
    outcomes that occur in [S], each once, each with its number of
    occurrences (at least one, so an absent outcome has no zero entry);
    and the percentages have the same keys in the same order, each
    [count / total x 100]. *)
Theorem calcular_estadisticas_quiniela_spec
    {S} (quiniela : list Resultado) (s : S) :
  exists e,
    calcular_estadisticas_quiniela quiniela s = (Ok e, s) /\
    total_partidos e = length quiniela /\
    suma (est_predicciones e) = length quiniela /\
    NoDup (keys (est_predicciones e)) /\
    (forall k, k ∈ keys (est_predicciones e)
               <-> exists r, r ∈ quiniela /\ prediccion r = k) /\
    (forall k c, (k, c) ∈ est_predicciones e ->
                 c = apariciones k quiniela /\ 0 < c) /\
    keys (porcentajes e) = keys (est_predicciones e) /\
    (forall k, dict_get (porcentajes e) k
               = (fun c => spec_pct c (length quiniela))
                   <$> dict_get (est_predicciones e) k).
Proof.
  exists {| total_partidos := length quiniela;
            est_predicciones := contar quiniela;
            porcentajes :=
              map (fun kc => (fst kc, spec_pct (snd kc) (length quiniela)))
                (contar quiniela) |}.
  split; [apply calcular_estadisticas_quiniela_ok |].
  cbn [total_partidos est_predicciones porcentajes].
  destruct (contar_desde quiniela []) as (Hnd & Hsum & Hkeys & Hcnt).
  cbn zeta in *. fold (contar quiniela) in *.
  assert (ND : NoDup (keys (contar quiniela))) by (apply Hnd; constructor).
  split; [reflexivity |]. split; [exact Hsum |]. split; [exact ND |].
  split; [| split; [| split]].
  - intros k. rewrite Hkeys. split; [| intros H; right; exact H].
    intros [H | H]; [inversion H | exact H].
  - intros k c Hin.
    assert (Hc : c = apariciones k quiniela).
    { specialize (Hcnt k). rewrite (dict_get_elem _ _ _ ND Hin) in Hcnt.
      exact Hcnt. }
    split; [exact Hc |]. subst c.
    assert (Hk : k ∈ keys (contar quiniela)).
    { apply (list_elem_of_fmap_2 fst _ _ Hin). }
    apply Hkeys in Hk as [Hk | (r & Hr & Hp)]; [inversion Hk |].
    unfold apariciones.
    assert (Hf : r ∈ filter (fun r => prediccion r = k) quiniela).
    { apply list_elem_of_filter. split; assumption. }
    destruct (filter _ quiniela); [inversion Hf | cbn; lia].
  - unfold keys. rewrite map_map. reflexivity.
  - clear Hnd Hsum Hkeys Hcnt ND. intros k.
    induction (contar quiniela) as [|[k' c'] d IH]; [reflexivity |].
    cbn. destruct (decide (k' = k)); [reflexivity | apply IH].
Qed.

(** C10. On the empty slip the function returns total 0 and two empty
    dictionaries; and on no slip does it raise ZeroDivisionError, the
    division being evaluated once per counted outcome only. *)
Theorem calcular_estadisticas_quiniela_vacia {S} (s : S) :
  calcular_estadisticas_quiniela [] s
  = (Ok {| total_partidos := 0; est_predicciones := []; porcentajes := [] |},
     s) /\
  forall quiniela,
    fst (calcular_estadisticas_quiniela quiniela s) <> Raise ZeroDivisionError.
Proof.
  split; [reflexivity |].
  intros quiniela. rewrite calcular_estadisticas_quiniela_ok. discriminate.
Qed.

(** ** The synthetic matches *)

Import Scraper.

Lemma choice_elem {A} (l : list A) (g : Rng) :
  l <> [] -> exists x, choice l g = (Ok x, advance 1 g) /\ x ∈ l.
Proof.
  intros Hl. destruct l as [|a l]; [congruence |].
  unfold choice, bind, _randbelow, ret.
  set (i := N.to_nat (draw g) mod length (a :: l)).
  exists (nth i (a :: l) a). split; [reflexivity |].
  assert (Hi : i < length (a :: l)).
  { apply Nat.mod_upper_bound. cbn. lia. }
  rewrite nth_lookup. apply lookup_lt_is_Some in Hi as [x Hx].
  rewrite Hx. cbn. apply (list_elem_of_lookup_2 _ _ _ Hx).
Qed.

Lemma list_remove_ok {S} (x : pystr) (l : list pystr) (s : S) :
  x ∈ l ->
  exists l', list_remove x l s = (Ok l', s) /\
    length l = Datatypes.S (length l') /\
    (forall y, y ∈ l' -> y ∈ l) /\
    (NoDup l -> x ∉ l').
Proof.
  induction l as [|y l IH]; intros Hx; [inversion Hx |].
  cbn. destruct (decide (y = x)) as [-> | Hne].
  - exists l. split; [reflexivity |]. split; [reflexivity |]. split.
    + intros z Hz. right. exact Hz.
    + intros Hnd. apply NoDup_cons in Hnd as [H _]. exact H.
  - apply elem_of_cons in Hx as [-> | Hx]; [congruence |].
    destruct (IH Hx) as (l' & Hl' & Hlen & Hsub & Hnd).
    exists (y :: l'). unfold bind. rewrite Hl'.
    split; [reflexivity |]. split; [cbn; lia |]. split.
    + intros z Hz. apply elem_of_cons in Hz as [-> | Hz];
        [left | right; apply Hsub, Hz].
    + intros H. apply NoDup_cons in H as [_ H].
      rewrite not_elem_of_cons. split; [congruence | apply Hnd, H].
Qed.

Lemma length_filter_split {A} (P : A -> Prop) `{forall x, Decision (P x)}
    (l : list A) :
  length l = length (filter P l) + length (filter (fun x => ~ P x) l).
Proof.
  induction l as [|a l IH]; [reflexivity |].
  rewrite !filter_cons. destruct (decide (P a)) as [Ha | Ha].
  - rewrite decide_False by tauto. cbn. lia.
  - rewrite decide_True by exact Ha. cbn. lia.
Qed.

(** Names not yet used: at least the size of the pool less the marks. *)
Lemma disponibles_length (l : list pystr) (X : gset pystr) :
  NoDup l -> length l <= length (filter (fun e => e ∉ X) l) + size X.
Proof.
  intros Hnd.
  rewrite (length_filter_split (fun e => e ∉ X) l).
  apply Nat.add_le_mono_l.
  unfold size, set_size. cbn.
  apply submseteq_length, NoDup_submseteq.
  - apply NoDup_filter, Hnd.
  - intros x Hx. apply list_elem_of_filter in Hx as [Hx _].
    apply elem_of_elements. destruct (decide (x ∈ X)); tauto.
Qed.

Lemma size_add_le (x : pystr) (X : gset pystr) :
  size ({[x]} ∪ X) <= Datatypes.S (size X).
Proof.
  rewrite size_union_alt, size_singleton.
  assert (Hsub : X ∖ {[x]} ⊆ X) by set_solver.
  apply subseteq_size in Hsub. lia.
Qed.

Lemma todos_NoDup : NoDup todos.
Proof.
  assert (H : bool_decide (NoDup todos) = true) by (vm_compute; reflexivity).
  exact (proj1 (bool_decide_eq_true _) H).
Qed.

Lemma todos_length : length todos = 32.
Proof. reflexivity. Qed.

Lemma equipos_length (ps : list Partido) :
  length (equipos ps) = 2 * length ps.
Proof.
  induction ps as [|p ps IH]; [reflexivity |].
  change (equipos (p :: ps)) with (local p :: visitante p :: equipos ps).
  cbn [length]. lia.
Qed.

Lemma equipos_app (ps qs : list Partido) :
  equipos (ps ++ qs) = equipos ps ++ equipos qs.
Proof. unfold equipos. apply flat_map_app. Qed.

(** One iteration, from a state that satisfies the invariant: no reset,
    no exception, and the invariant again. *)
Lemma paso_Inv (n : nat) (st : Muestra) (g : Rng) :
  Inv n st -> n < 14 ->
  exists st' g', paso st n g = (Ok st', g') /\ Inv (n + 1) st'.
Proof.
  intros [Ht Hsz Hlen Hus Hnd Hpool Hp] Hn. unfold paso.
  set (disponibles := filter (fun e => e ∉ equipos_usados st)
                        (todos_los_equipos st)).
  assert (Hd : 6 <= length disponibles).
  { pose proof (disponibles_length todos (equipos_usados st) todos_NoDup) as H.
    rewrite todos_length in H. subst disponibles. rewrite Ht. lia. }
  assert (Hdn : NoDup disponibles).
  { subst disponibles. rewrite Ht. apply NoDup_filter, todos_NoDup. }
  destruct (length disponibles <? 2) eqn:E;
    [apply Nat.ltb_lt in E; lia | clear E].
  destruct (choice_elem disponibles g) as (loc & Hloc & Hlin).
  { intros E. rewrite E in Hd. cbn in Hd. lia. }
  destruct (list_remove_ok loc disponibles (advance 1 g) Hlin)
    as (d' & Hd' & Hlen' & Hsub & Hout).
  destruct (choice_elem d' (advance 1 g)) as (vis & Hvis & Hvin).
  { intros E. rewrite E in Hlen'. cbn in Hlen'. lia. }
  eexists _, _. split.
  { unfold bind at 1. rewrite Hloc. unfold bind at 1. rewrite Hd'.
    unfold bind at 1. rewrite Hvis. reflexivity. }
  assert (Hne : loc <> vis).
  { intros ->. exact (Hout Hdn Hvin). }
  assert (Hlu : loc ∉ equipos_usados st).
  { subst disponibles. apply list_elem_of_filter in Hlin as [H _]. exact H. }
  assert (Hvd : vis ∈ disponibles) by (apply Hsub, Hvin).
  assert (Hvu : vis ∉ equipos_usados st).
  { subst disponibles. apply list_elem_of_filter in Hvd as [H _]. exact H. }
  assert (Hdt : forall e, e ∈ disponibles -> e ∈ todos).
  { intros e He. subst disponibles. rewrite Ht in He.
    apply list_elem_of_filter in He as [_ H]. exact H. }
  constructor; cbn [todos_los_equipos equipos_usados partidos].
  - exact Ht.
  - pose proof (size_add_le vis ({[loc]} ∪ equipos_usados st)).
    pose proof (size_add_le loc (equipos_usados st)). lia.
  - rewrite length_app. cbn [length]. lia.
  - intros e. rewrite equipos_app, elem_of_app. cbn [equipos flat_map local visitante app].
    intros [He | He]; [apply Hus in He; set_solver |].
    rewrite !elem_of_cons in He. destruct He as [-> | [-> | He]];
      [set_solver | set_solver | inversion He].
  - rewrite equipos_app. apply NoDup_app. split; [exact Hnd |]. split.
    + intros e He. apply Hus in He. cbn [equipos flat_map local visitante app].
      rewrite !not_elem_of_cons.
      split; [congruence |]. split; [congruence |]. intros H. inversion H.
    + cbn [equipos flat_map local visitante app]. apply NoDup_cons. split; [| apply NoDup_singleton].
      intros H. apply list_elem_of_singleton in H. congruence.
  - intros e. rewrite equipos_app, elem_of_app. cbn [equipos flat_map local visitante app].
    intros [He | He]; [apply Hpool, He |].
    apply elem_of_cons in He as [-> | He]; [apply Hdt, Hlin |].
    apply elem_of_cons in He as [-> | He]; [apply Hdt, Hvd | inversion He].
  - intros i p Hi. apply lookup_snoc_Some in Hi as [[Hi Hi'] | [Hi Hi']].
    + apply Hp. exact Hi'.
    + subst p. cbn [local visitante fecha]. split; [exact Hne |].
      unfold jornada. rewrite Hi, Hlen. reflexivity.
Qed.

Lemma foldM_paso_Inv (m k : nat) (st : Muestra) (g : Rng) :
  Inv k st -> k + m <= 14 ->
  exists st' g', foldM paso (seq k m) st g = (Ok st', g') /\ Inv (k + m) st'.
Proof.
  revert k st g. induction m as [|m IH]; intros k st g HI Hk.
  - exists st, g. split; [reflexivity |]. rewrite Nat.add_0_r. exact HI.
  - destruct (paso_Inv k st g HI ltac:(lia)) as (st1 & g1 & H1 & HI1).
    rewrite Nat.add_1_r in HI1.
    destruct (IH (Datatypes.S k) st1 g1 HI1 ltac:(lia)) as (st2 & g2 & H2 & HI2).
    exists st2, g2. split.
    + change (foldM paso (seq k (Datatypes.S m)) st g)
        with (bind (paso st k) (fun b => foldM paso (seq (Datatypes.S k) m) b) g).
      unfold bind. rewrite H1. exact H2.
    + replace (k + Datatypes.S m) with (Datatypes.S k + m) by lia. exact HI2.
Qed.

(** The loop of [_generate_sample_partidos] runs its 14 iterations. *)
Lemma _generate_sample_partidos_Inv (g : Rng) :
  exists st g',
    _generate_sample_partidos g = (Ok (partidos st), g') /\ Inv 14 st.
Proof.
  unfold _generate_sample_partidos, range.
  change (Z.to_nat 14) with 14.
  set (st0 := {| todos_los_equipos := equipos_mexicanos ++ equipos_internacionales;
                 equipos_usados := ∅;
                 partidos := [] |}).
  assert (H0 : Inv 0 st0).
  { constructor; cbn [todos_los_equipos equipos_usados partidos st0].
    - reflexivity.
    - rewrite size_empty. lia.
    - reflexivity.
    - intros e H. inversion H.
    - constructor.
    - intros e H. inversion H.
    - intros i p H. discriminate. }
  destruct (foldM_paso_Inv 14 0 st0 g H0 ltac:(lia)) as (st & g' & Hf & HI).
  exists st, g'. split; [| exact HI].
  unfold bind. rewrite Hf. reflexivity.
Qed.

(** C4. For every sequence of random draws [_generate_sample_partidos]
    returns, without raising, exactly 14 matches; in each the home team
    differs from the away team and the i-th (from 1) is dated
    "Jornada i". Moreover an iteration that finds fewer than two unused
    names forgets the used names and draws from the whole list. *)
Theorem _generate_sample_partidos_spec (g : Rng) :
  (exists ps g',
     _generate_sample_partidos g = (Ok ps, g') /\
     length ps = 14 /\
     forall i p, ps !! i = Some p ->
       local p <> visitante p /\
       fecha p = Some (u "Jornada " ++ str_of_nat (i + 1))) /\
  (forall st i,
     length (filter (fun e => e ∉ equipos_usados st) (todos_los_equipos st)) < 2 ->
     2 <= length (todos_los_equipos st) ->
     exists st' g' p,
       paso st i g = (Ok st', g') /\
       partidos st' = partidos st ++ [p] /\
       local p ∈ todos_los_equipos st /\
       visitante p ∈ todos_los_equipos st /\
       equipos_usados st' = {[visitante p]} ∪ ({[local p]} ∪ ∅)).
Proof.
  split.
  - destruct (_generate_sample_partidos_Inv g) as (st & g' & Hg & HI).
    exists (partidos st), g'. split; [exact Hg |].
    split; [apply (inv_length _ _ HI) | apply (inv_pares _ _ HI)].
  - intros st i Hlt Hlen. unfold paso.
    apply Nat.ltb_lt in Hlt. rewrite Hlt.
    destruct (choice_elem (todos_los_equipos st) g) as (loc & Hloc & Hlin).
    { intros E. rewrite E in Hlen. cbn in Hlen. lia. }
    destruct (list_remove_ok loc (todos_los_equipos st) (advance 1 g) Hlin)
      as (d' & Hd' & Hlen' & Hsub & _).
    destruct (choice_elem d' (advance 1 g)) as (vis & Hvis & Hvin).
    { intros E. rewrite E in Hlen'. cbn in Hlen'. lia. }
    eexists _, _, (mkPartido loc vis (Some (jornada i))). split.
    { unfold bind at 1. rewrite Hloc. unfold bind at 1. rewrite Hd'.
      unfold bind at 1. rewrite Hvis. reflexivity. }
    cbn [partidos equipos_usados local visitante].
    split; [reflexivity |]. split; [exact Hlin |].
    split; [apply Hsub, Hvin | reflexivity].
Qed.

(** C9. In the list [_generate_sample_partidos] returns, the 28 team
    names of the 14 matches are pairwise distinct, and all of them are
    names of the pool of 32. *)
Theorem _generate_sample_partidos_distintos (g : Rng) :
  exists ps g',
    _generate_sample_partidos g = (Ok ps, g') /\
    length (equipos ps) = 28 /\
    NoDup (equipos ps) /\
    length todos = 32 /\
    forall e, e ∈ equipos ps -> e ∈ todos.
Proof.
  destruct (_generate_sample_partidos_Inv g) as (st & g' & Hg & HI).
  exists (partidos st), g'. split; [exact Hg |].
  rewrite equipos_length, (inv_length _ _ HI).
  split; [reflexivity |]. split; [apply (inv_nodup _ _ HI) |].
  split; [reflexivity | apply (inv_pool _ _ HI)].
Qed.

(** ** Structured extraction *)

Lemma recorrer_nonempty (patterns : list (list Element)) (p : Partido)
    (ps : list Partido) :
  recorrer patterns (p :: ps) = p :: ps.
Proof. destruct patterns; reflexivity. Qed.

Lemma recorrer_primer_grupo (patterns : list (list Element)) :
  recorrer patterns [] = primer_grupo patterns.
Proof.
  induction patterns as [|grp rest IH]; [reflexivity |].
  cbn [recorrer primer_grupo app]. fold (pares_de_grupo grp).
  destruct (pares_de_grupo grp) as [|p ps]; [exact IH |].
  apply recorrer_nonempty.
Qed.

Lemma filtrar_take (ps acc : list Partido) :
  length acc < 14 ->
  filtrar ps acc
  = acc ++ take (14 - length acc) (filter (fun p => es_valido p) ps).
Proof.
  revert acc. induction ps as [|p ps IH]; intros acc Hacc.
  - cbn. rewrite take_nil, app_nil_r. reflexivity.
  - cbn [filtrar]. rewrite filter_cons.
    destruct (es_valido p) eqn:E.
    + rewrite decide_True by exact I.
      destruct (14 <=? length (acc ++ [p])) eqn:E14.
      * apply Nat.leb_le in E14. rewrite length_app in E14. cbn in E14.
        replace (14 - length acc) with 1 by lia.
        cbn. rewrite take_0. reflexivity.
      * apply Nat.leb_gt in E14. rewrite IH by exact E14.
        rewrite length_app in *. cbn [length] in *.
        replace (14 - length acc) with (Datatypes.S (14 - (length acc + 1))) by lia.
        cbn [take]. rewrite <- app_assoc. reflexivity.
    + rewrite decide_False by (intros H; exact H).
      apply IH. exact Hacc.
Qed.

Lemma primer_grupo_app (pre post : list (list Element)) (grp : list Element) :
  Forall (fun g => pares_de_grupo g = []) pre ->
  pares_de_grupo grp <> [] ->
  primer_grupo (pre ++ grp :: post) = pares_de_grupo grp.
Proof.
  intros Hpre Hgrp. induction Hpre as [|g pre Hg _ IH]; cbn.
  - destruct (pares_de_grupo grp); [congruence | reflexivity].
  - rewrite Hg. exact IH.
Qed.

(** C2, as the code has it. The groups are scanned in the order of
    [patterns] and scanning stops at the first group in which the pattern
    matches at least once, whether or not one of its pairs is valid; the
    result is made of the first 14 pairs of that group, in order and with
    repetitions kept, whose two trimmed names are longer than 2 and differ.
    A failure of the download or of the parse gives the empty list. *)
Theorem _scrape_with_requests_spec
    (requests_get : M Rng (list (list Element))) (g : Rng) :
  _scrape_with_requests requests_get g
  = match requests_get g with
    | (Ok patterns, g') =>
        (Ok (take 14 (filter (fun p => es_valido p) (primer_grupo patterns))),
         g')
    | (Raise _, g') => (Ok [], g')
    end /\
  (forall pre grp post,
     Forall (fun g => pares_de_grupo g = []) pre ->
     pares_de_grupo grp <> [] ->
     primer_grupo (pre ++ grp :: post) = pares_de_grupo grp) /\
  (forall patterns,
     Forall (fun g => pares_de_grupo g = []) patterns ->
     primer_grupo patterns = []).
Proof.
  split; [| split].
  - unfold _scrape_with_requests, try_except, bind.
    destruct (requests_get g) as [[patterns | e] g']; [| reflexivity].
    unfold ret. rewrite recorrer_primer_grupo, filtrar_take by (cbn; lia).
    reflexivity.
  - intros pre grp post. apply primer_grupo_app.
  - intros patterns H. induction H as [|g1 l Hg _ IH]; [reflexivity |].
    cbn. rewrite Hg. exact IH.
Qed.

(** C2, as stated, fails on [pagina0]: the table yields the pair LA, NY,
    which is not valid, yet scanning stops there and the result is empty,
    where the specification's reading goes on to the text nodes and
    returns Pumas against Tigres. *)
Lemma _scrape_with_requests_not_first_valid :
  _scrape_with_requests (ret pagina0) g0 = (Ok [], g0) /\
  spec_scrape pagina0
  = [mkPartido (u "Pumas") (u "Tigres") (Some proxima_jornada)] /\
  _scrape_with_requests (ret pagina0) g0 <> (Ok (spec_scrape pagina0), g0).
Proof.
  assert (H1 : _scrape_with_requests (ret pagina0) g0 = (Ok [], g0))
    by (vm_compute; reflexivity).
  assert (H2 : spec_scrape pagina0
               = [mkPartido (u "Pumas") (u "Tigres") (Some proxima_jornada)])
    by (vm_compute; reflexivity).
  split; [exact H1 |]. split; [exact H2 |].
  rewrite H1, H2. discriminate.
Qed.

Example _scrape_with_requests_keeps_repeats :
  _scrape_with_requests (ret pagina1) g0
  = (Ok [ mkPartido (u "Pumas") (u "Tigres") (Some proxima_jornada);
          mkPartido (u "Pumas") (u "Tigres") (Some proxima_jornada) ], g0).
Proof. vm_compute. reflexivity. Qed.

(** ** The resolver *)

Lemma _generate_sample_partidos_14 (g : Rng) :
  exists ps g', _generate_sample_partidos g = (Ok ps, g') /\ length ps = 14.
Proof.
  destruct (_generate_sample_partidos_Inv g) as (st & g' & Hg & HI).
  exists (partidos st), g'. split; [exact Hg | apply (inv_length _ _ HI)].
Qed.

Lemma _scrape_with_requests_ok
    (requests_get : M Rng (list (list Element))) (g : Rng) :
  exists ps g', _scrape_with_requests requests_get g = (Ok ps, g').
Proof.
  unfold _scrape_with_requests, try_except, bind.
  destruct (requests_get g) as [[patterns | e] g']; eexists _, _; reflexivity.
Qed.

Lemma _scrape_with_trafilatura_ok
    (trafilatura_text : M Rng (option pystr))
    (findall_lineas : pystr -> list (pystr * pystr)) (g : Rng) :
  exists ps g',
    _scrape_with_trafilatura trafilatura_text findall_lineas g = (Ok ps, g').
Proof.
  unfold _scrape_with_trafilatura, try_except, bind.
  destruct (trafilatura_text g) as [[[text |] | e] g'];
    eexists _, _; reflexivity.
Qed.

(** C6. Whatever the two strategies do, raising included, [get_partidos]
    returns and does not raise; and when the first strategy raised, or
    returned nothing and the second raised or returned nothing, what it
    returns is a list [_generate_sample_partidos] built, of 14 matches.
    The two strategies of the class themselves never raise. *)
Theorem get_partidos_spec
    (requests_get : M Rng (list (list Element)))
    (trafilatura_text : M Rng (option pystr))
    (findall_lineas : pystr -> list (pystr * pystr))
    (primera segunda : M Rng (list Partido)) (g : Rng) :
  (exists ps g',
     get_partidos_con primera segunda g = (Ok ps, g') /\
     (recurre primera segunda g ->
        length ps = 14 /\
        exists g1, _generate_sample_partidos g1 = (Ok ps, g'))) /\
  (exists ps g',
     get_partidos requests_get trafilatura_text findall_lineas g
       = (Ok ps, g')) /\
  (exists ps g', _scrape_with_requests requests_get g = (Ok ps, g')) /\
  (exists ps g',
     _scrape_with_trafilatura trafilatura_text findall_lineas g
       = (Ok ps, g')).
Proof.
  assert (G : forall primera segunda,
            exists ps g',
              get_partidos_con primera segunda g = (Ok ps, g') /\
              (recurre primera segunda g ->
                 length ps = 14 /\
                 exists g1, _generate_sample_partidos g1 = (Ok ps, g'))).
  { clear. intros primera segunda.
    unfold get_partidos_con, recurre, try_except, bind.
    destruct (primera g) as [[[|p ps] | e] g1].
    - destruct (segunda g1) as [[[|p ps] | e] g2].
      + destruct (_generate_sample_partidos_14 g2) as (qs & g3 & Hq & Hlen).
        rewrite Hq. exists qs, g3. split; [reflexivity |].
        intros _. split; [exact Hlen | exists g2; exact Hq].
      + exists (p :: ps), g2. split; [reflexivity | intros []].
      + destruct (_generate_sample_partidos_14 g2) as (qs & g3 & Hq & Hlen).
        exists qs, g3. split; [exact Hq |].
        intros _. split; [exact Hlen | exists g2; exact Hq].
    - exists (p :: ps), g1. split; [reflexivity | intros []].
    - destruct (_generate_sample_partidos_14 g1) as (qs & g3 & Hq & Hlen).
      exists qs, g3. split; [exact Hq |].
      intros _. split; [exact Hlen | exists g1; exact Hq]. }
  split; [apply G |]. split; [| split].
  - unfold get_partidos.
    destruct (G (_scrape_with_requests requests_get)
                (_scrape_with_trafilatura trafilatura_text findall_lineas))
      as (ps & g' & H & _).
    exists ps, g'. exact H.
  - apply _scrape_with_requests_ok.
  - apply _scrape_with_trafilatura_ok.
Qed.

(** ** The slip store *)

Import Database.

(** C7. Without [DATABASE_URL] in the environment the object is built with
    [db_available] false and without touching the server, and each of the
    five operations returns its empty result (None, [], None, False, the
    zeroed record) at once: no exception, no call to the driver, the
    server unchanged. *)
Theorem sin_DATABASE_URL
    (environ : list (pystr * pystr)) (srv : Server)
    (quiniela : list Resultado) (limite quiniela_id : Z) :
  dict_get environ (u "DATABASE_URL") = None ->
  exists self,
    __init__ environ srv = (Ok self, srv) /\
    db_available self = false /\
    guardar_quiniela self quiniela srv = (Ok None, srv) /\
    obtener_quinielas self limite srv = (Ok [], srv) /\
    obtener_quiniela_por_id self quiniela_id srv = (Ok None, srv) /\
    eliminar_quiniela self quiniela_id srv = (Ok false, srv) /\
    obtener_estadisticas self srv = (Ok (mkResumen 0 None None), srv).
Proof.
  intros Henv. exists (mkDb None false).
  unfold __init__. rewrite Henv.
  repeat split; reflexivity.
Qed.

Lemma sin_DATABASE_URL_witness :
  exists self,
    __init__ environ0 servidor0 = (Ok self, servidor0) /\
    db_available self = false /\
    guardar_quiniela self [] servidor0 = (Ok None, servidor0) /\
    obtener_quinielas self 50 servidor0 = (Ok [], servidor0) /\
    obtener_quiniela_por_id self 7 servidor0 = (Ok None, servidor0) /\
    eliminar_quiniela self 7 servidor0 = (Ok false, servidor0) /\
    obtener_estadisticas self servidor0 = (Ok (mkResumen 0 None None), servidor0).
Proof. apply (sin_DATABASE_URL environ0 servidor0 [] 50 7). reflexivity. Defined.

(** Case analysis on the next call of the driver. *)
Ltac falla :=
  match goal with
  | |- context [if faults ?s ?n then _ else _] =>
      let E := fresh "E" in destruct (faults s n) eqn:E
  end.

Ltac desplegar :=
  unfold try_except, bind, commit, call, select_all, nextval,
    current_timestamp, limit, ret, raise;
  cbn [quinielas quinielas_id_seq now faults calls].

Lemma filter_id_ne (rows : list Row) (quiniela_id : Z) :
  (forall r, r ∈ rows -> id r <> quiniela_id) ->
  filter (fun r => id r <> quiniela_id) rows = rows.
Proof.
  induction rows as [|r rows IH]; intros H; [reflexivity |].
  rewrite filter_cons_True by (apply H; left).
  f_equal. apply IH. intros r' Hr'. apply H. right. exact Hr'.
Qed.

Lemma filter_id_eq (rows : list Row) (quiniela_id : Z) :
  (forall r, r ∈ rows -> id r <> quiniela_id) ->
  filter (fun r => id r = quiniela_id) rows = [].
Proof.
  induction rows as [|r rows IH]; intros H; [reflexivity |].
  rewrite filter_cons_False by (apply H; left).
  apply IH. intros r' Hr'. apply H. right. exact Hr'.
Qed.

Lemma filter_id_length (rows : list Row) (quiniela_id : Z) :
  0 < length rows - length (filter (fun r => id r <> quiniela_id) rows) <->
  exists r, r ∈ rows /\ id r = quiniela_id.
Proof.
  pose proof (length_filter (fun r => id r <> quiniela_id) rows) as Hle.
  split.
  - intros Hlt. destruct (decide (Exists (fun r => id r = quiniela_id) rows))
      as [He | He].
    + apply Exists_exists in He. exact He.
    + exfalso. rewrite filter_id_ne in Hlt; [lia |].
      intros r Hr E. apply He, Exists_exists. exists r. split; assumption.
  - intros (r & Hr & E).
    pose proof (length_filter_lt (fun r => id r <> quiniela_id) rows r Hr) as H.
    cbv beta in H. lia.
Qed.

(** [eliminar_quiniela] always returns; the rows after it are the rows
    before or those with another id; True means the latter, and that a row
    had the id. *)
Lemma eliminar_quiniela_casos (self : QuinielaDatabase) (quiniela_id : Z)
    (srv : Server) :
  exists b srv',
    eliminar_quiniela self quiniela_id srv = (Ok b, srv') /\
    (quinielas srv' = quinielas srv \/
     quinielas srv'
     = filter (fun r => id r <> quiniela_id) (quinielas srv)) /\
    (b = true ->
       quinielas srv'
       = filter (fun r => id r <> quiniela_id) (quinielas srv) /\
       exists r, r ∈ quinielas srv /\ id r = quiniela_id).
Proof.
  unfold eliminar_quiniela.
  destruct (db_available self); cbn [negb];
    [| eexists _, _; split; [reflexivity |]; split; [left; reflexivity |];
       discriminate].
  desplegar.
  repeat (falla; desplegar);
    (eexists _, _; split; [reflexivity |]);
    cbn [quinielas];
    (split; [first [left; reflexivity | right; reflexivity] |]);
    try discriminate.
  intros Hb. split; [reflexivity |].
  apply Nat.ltb_lt in Hb. apply filter_id_length. exact Hb.
Qed.

Lemma obtener_quiniela_por_id_casos (self : QuinielaDatabase)
    (quiniela_id : Z) (srv : Server) :
  exists o srv',
    obtener_quiniela_por_id self quiniela_id srv = (Ok o, srv') /\
    (o = None \/
     o = head (filter (fun r => id r = quiniela_id) (quinielas srv))).
Proof.
  unfold obtener_quiniela_por_id.
  destruct (db_available self); cbn [negb];
    [| eexists _, _; split; [reflexivity | left; reflexivity]].
  desplegar.
  repeat (falla; desplegar);
    (eexists _, _; split; [reflexivity |]);
    first [left; reflexivity | right; reflexivity].
Qed.

Lemma insertar_elem (x r : Row) (l : list Row) :
  r ∈ insertar x l -> r = x \/ r ∈ l.
Proof.
  induction l as [|y l IH]; cbn.
  - intros H. apply list_elem_of_singleton in H. left. exact H.
  - destruct (fecha_generacion y <? fecha_generacion x)%Z.
    + intros H. apply elem_of_cons in H. exact H.
    + intros H. apply elem_of_cons in H as [-> | H]; [right; left |].
      destruct (IH H) as [-> | H']; [left; reflexivity | right; right; exact H'].
Qed.

Lemma order_by_fecha_desc_elem (r : Row) (l : list Row) :
  r ∈ order_by_fecha_desc l -> r ∈ l.
Proof.
  unfold order_by_fecha_desc. induction l as [|x l IH]; cbn; [trivial |].
  intros H. apply insertar_elem in H as [-> | H]; [left | right; apply IH, H].
Qed.

Lemma obtener_quinielas_casos (self : QuinielaDatabase) (limite : Z)
    (srv : Server) :
  exists l srv',
    obtener_quinielas self limite srv = (Ok l, srv') /\
    forall r, r ∈ l -> r ∈ quinielas srv.
Proof.
  unfold obtener_quinielas.
  destruct (db_available self); cbn [negb];
    [| eexists _, _; split; [reflexivity | intros r H; inversion H]].
  desplegar.
  destruct (limite <? 0)%Z;
  repeat (falla; desplegar);
    (eexists _, _; split; [reflexivity |]);
    try (intros r H; inversion H; fail).
  intros r H. apply order_by_fecha_desc_elem.
  apply (subseteq_take (Z.to_nat limite) _ _ H).
Qed.

Lemma guardar_quiniela_guardada (self : QuinielaDatabase)
    (quiniela : list Resultado) (srv srv' : Server) (i : Z) :
  guardar_quiniela self quiniela srv = (Ok (Some i), srv') ->
  exists r, r ∈ quinielas srv' /\ id r = i /\ datos r = quiniela.
Proof.
  unfold guardar_quiniela.
  destruct (db_available self); cbn [negb]; [| discriminate].
  desplegar.
  repeat (falla; desplegar); try discriminate.
  intros H. inversion H; subst; clear H. cbn [quinielas].
  eexists. split; [apply elem_of_app; right; left |].
  split; reflexivity.
Qed.

Lemma eliminar_quiniela_sin_fallos (self : QuinielaDatabase)
    (quiniela_id : Z) (srv : Server) :
  db_available self = true ->
  (exists r, r ∈ quinielas srv /\ id r = quiniela_id) ->
  (forall k, k < 6 -> faults srv (calls srv + k) = false) ->
  exists srv', eliminar_quiniela self quiniela_id srv = (Ok true, srv').
Proof.
  intros Hav Hr Hf. unfold eliminar_quiniela. rewrite Hav. cbn [negb].
  assert (F0 : faults srv (calls srv) = false)
    by (rewrite <- (Nat.add_0_r (calls srv)); apply Hf; lia).
  assert (F1 : faults srv (calls srv + 1) = false) by (apply Hf; lia).
  assert (F2 : faults srv (calls srv + 1 + 1) = false)
    by (rewrite <- Nat.add_assoc; apply Hf; cbn; lia).
  assert (F3 : faults srv (calls srv + 1 + 1 + 1) = false)
    by (rewrite <- !Nat.add_assoc; apply Hf; cbn; lia).
  assert (F4 : faults srv (calls srv + 1 + 1 + 1 + 1) = false)
    by (rewrite <- !Nat.add_assoc; apply Hf; cbn; lia).
  assert (F5 : faults srv (calls srv + 1 + 1 + 1 + 1 + 1) = false)
    by (rewrite <- !Nat.add_assoc; apply Hf; cbn; lia).
  desplegar. rewrite F0. desplegar. rewrite F1. desplegar. rewrite F2.
  desplegar. rewrite F3. desplegar. rewrite F4. desplegar. rewrite F5.
  apply filter_id_length, Nat.ltb_lt in Hr. rewrite Hr.
  eexists. reflexivity.
Qed.

(** C8. [eliminar_quiniela] never raises. On an identifier that no row
    has it returns False and leaves the rows as they are. On an
    identifier that a row has, with the store available and the driver
    working, it returns True. And once it has returned True for an
    identifier that identifier was stored, [obtener_quiniela_por_id]
    returns None for it, no listing contains it, and deleting it again
    returns False. An identifier [guardar_quiniela] returned is stored. *)
Theorem eliminar_quiniela_spec
    (self : QuinielaDatabase) (quiniela_id : Z) (srv : Server) :
  (exists b srv', eliminar_quiniela self quiniela_id srv = (Ok b, srv')) /\
  ((forall r, r ∈ quinielas srv -> id r <> quiniela_id) ->
     exists srv',
       eliminar_quiniela self quiniela_id srv = (Ok false, srv') /\
       quinielas srv' = quinielas srv) /\
  (db_available self = true ->
   (exists r, r ∈ quinielas srv /\ id r = quiniela_id) ->
   (forall k, k < 6 -> faults srv (calls srv + k) = false) ->
     exists srv', eliminar_quiniela self quiniela_id srv = (Ok true, srv')) /\
  (forall srv',
     eliminar_quiniela self quiniela_id srv = (Ok true, srv') ->
     (exists r, r ∈ quinielas srv /\ id r = quiniela_id) /\
     (exists srv'',
        obtener_quiniela_por_id self quiniela_id srv' = (Ok None, srv'')) /\
     (forall limite, exists l srv'',
        obtener_quinielas self limite srv' = (Ok l, srv'') /\
        forall r, r ∈ l -> id r <> quiniela_id) /\
     (exists srv'',
        eliminar_quiniela self quiniela_id srv' = (Ok false, srv''))) /\
  (forall quiniela srv0,
     guardar_quiniela self quiniela srv0 = (Ok (Some quiniela_id), srv) ->
     exists r, r ∈ quinielas srv /\ id r = quiniela_id /\ datos r = quiniela).
Proof.
  assert (Absent : forall s,
            (forall r, r ∈ quinielas s -> id r <> quiniela_id) ->
            exists s',
              eliminar_quiniela self quiniela_id s = (Ok false, s') /\
              quinielas s' = quinielas s).
  { intros s Hno.
    destruct (eliminar_quiniela_casos self quiniela_id s)
      as (b & s' & He & Hrows & Hb).
    destruct b.
    - destruct (Hb eq_refl) as (_ & r & Hr & E). destruct (Hno r Hr E).
    - exists s'. split; [exact He |].
      destruct Hrows as [H | H]; [exact H |].
      rewrite H. apply filter_id_ne, Hno. }
  split; [| split; [| split; [| split]]].
  - destruct (eliminar_quiniela_casos self quiniela_id srv)
      as (b & s' & He & _).
    exists b, s'. exact He.
  - apply Absent.
  - apply eliminar_quiniela_sin_fallos.
  - intros srv' He.
    destruct (eliminar_quiniela_casos self quiniela_id srv)
      as (b & s' & He' & _ & Hb).
    rewrite He in He'. inversion He'; subst b s'; clear He'.
    destruct (Hb eq_refl) as (Hrows & Hstored).
    assert (Hno : forall r, r ∈ quinielas srv' -> id r <> quiniela_id).
    { intros r Hr. rewrite Hrows in Hr.
      apply list_elem_of_filter in Hr as [H _]. exact H. }
    split; [exact Hstored |]. split; [| split].
    + destruct (obtener_quiniela_por_id_casos self quiniela_id srv')
        as (o & s'' & Ho & Hcase).
      exists s''. rewrite Ho. destruct Hcase as [-> | ->]; [reflexivity |].
      rewrite filter_id_eq by exact Hno. reflexivity.
    + intros limite.
      destruct (obtener_quinielas_casos self limite srv')
        as (l & s'' & Hl & Hsub).
      exists l, s''. split; [exact Hl |].
      intros r Hr. apply Hno, Hsub, Hr.
    + destruct (Absent srv' Hno) as (s'' & H & _). exists s''. exact H.
  - intros quiniela srv0. apply guardar_quiniela_guardada.
Qed.

(** The scenario of C8 on a concrete server: the stored slip 7 is deleted,
    then not found, then not deleted twice. *)
Example eliminar_quiniela_7 :
  let self := mkDb (Some (u "postgres://db")) true in
  let r1 := eliminar_quiniela self 7 servidor0 in
  let r2 := obtener_quiniela_por_id self 7 (snd r1) in
  let r3 := eliminar_quiniela self 7 (snd r2) in
  fst r1 = Ok true /\ fst r2 = Ok None /\ fst r3 = Ok false /\
  quinielas (snd r3) = [].
Proof. vm_compute. repeat split. Qed.

(** * Further properties *)

(** ** The slip generator, continued *)

(** X2. A count that is zero or negative gives no slip and draws nothing,
    whatever the matches. *)
Theorem generar_quinielas_no_positivo
    (partidos : list Partido) (cantidad : Z) (g : Rng) :
  (cantidad <= 0)%Z ->
  generar_quinielas partidos cantidad g = (Ok [], g).
Proof.
  intros Hk. unfold generar_quinielas, range.
  replace (Z.to_nat cantidad) with 0 by lia.
  destruct partidos; reflexivity.
Qed.

Lemma generar_quinielas_no_positivo_witness :
  generar_quinielas partidos0 (-3) g0 = (Ok [], g0).
Proof. apply (generar_quinielas_no_positivo partidos0 (-3) g0). lia. Defined.

Lemma resultado_completo (i : nat) (p : Partido) (k : pystr) (g : Rng) :
  k ∈ keys predicciones ->
  exists r, resultado i p k g = (Ok r, g) /\ linea_completa (i, p) r.
Proof.
  intros Hk.
  change (keys predicciones) with [u "Local"; u "Empate"; u "Visitante"] in Hk.
  apply elem_of_cons in Hk as [-> | Hk];
    [| apply elem_of_cons in Hk as [-> | Hk];
       [| apply elem_of_cons in Hk as [-> | Hk]; [| inversion Hk]]];
    (eexists; split; [reflexivity |]);
    (split; [| split; [reflexivity |]]);
    [ split; [reflexivity |]; split; [reflexivity |]; split; [reflexivity |];
      unfold outcome_codes; left
    | unfold outcome_rows; left
    | split; [reflexivity |]; split; [reflexivity |]; split; [reflexivity |];
      unfold outcome_codes; right; left
    | unfold outcome_rows; right; left
    | split; [reflexivity |]; split; [reflexivity |]; split; [reflexivity |];
      unfold outcome_codes; right; right; left
    | unfold outcome_rows; right; right; left ].
Qed.

Lemma linea_completa_quiniela (partidos : list Partido) (q : list Resultado) :
  Forall2 linea_completa (enumerate (take 14 partidos)) q ->
  es_quiniela_de partidos q /\
  forall i p r, partidos !! i = Some p -> q !! i = Some r ->
    res_fecha r = default (u "Sin fecha") (fecha p) /\
    (prediccion r, (codigo r, simbolo r)) ∈ outcome_rows.
Proof.
  intros HF. split.
  - apply linea_de_quiniela.
    eapply Forall2_impl; [exact HF |]. intros ip r [H _]. exact H.
  - intros i p r Hp Hr.
    assert (Hi : i < 14).
    { apply lookup_lt_Some in Hr.
      rewrite <- (Forall2_length _ _ _ HF), enumerate_length, length_take in Hr.
      lia. }
    assert (He : enumerate (take 14 partidos) !! i = Some (i, p)).
    { apply enumerate_lookup. rewrite lookup_take_lt by exact Hi. exact Hp. }
    destruct (Forall2_lookup_l _ _ _ _ _ HF He) as (r' & Hr' & _ & H2 & H3).
    rewrite Hr in Hr'. inversion Hr'; subst r'. split; assumption.
Qed.

Lemma generar_quiniela_con_tendencia_completa
    (partidos : list Partido) (tendencia : pystr) (g : Rng) :
  exists q g',
    generar_quiniela_con_tendencia partidos tendencia g = (Ok q, g') /\
    Forall2 linea_completa (enumerate (take 14 partidos)) q.
Proof.
  unfold generar_quiniela_con_tendencia.
  destruct (decide (tendencia = u "equilibrada")) as [_ | _].
  - unfold _generar_quiniela_individual. apply mapM_ok.
    intros [i p] s _. destruct (choice_keys s) as (k & Hc & Hk).
    destruct (resultado_completo i p k (advance 1 s) Hk) as (r & Hr & HL).
    exists r, (advance 1 s). split; [| exact HL].
    unfold bind. rewrite Hc. exact Hr.
  - unfold bind at 1.
    change (dict_item probabilidades (u "local") g)
      with (Ok [(u "Local", f0_5); (u "Empate", f0_25); (u "Visitante", f0_25)], g).
    cbv beta iota. rewrite prob_de_tendencia.
    destruct (spec_triple tendencia) as [[pl pe] pv].
    apply mapM_ok. intros [i p] s _.
    unfold bind at 1, random at 1. unfold bind at 1.
    rewrite elegir_three.
    destruct (resultado_completo i p _ (advance 1 s)
                (spec_select_key (pl, pe, pv) (float_of_draw (draw s))))
      as (r & Hr & HL).
    exists r, (advance 1 s). split; [exact Hr | exact HL].
Qed.

(** X4. For every bias, recognised or not, "equilibrada" included,
    [generar_quiniela_con_tendencia] returns without raising a slip of
    [min(|M|, 14)] lines numbered from 1 with the names of the matches;
    each line carries the date of its match, or "Sin fecha" when the match
    has none, and an outcome with the code and the glyph the table gives
    it. *)
Theorem generar_quiniela_con_tendencia_quiniela
    (partidos : list Partido) (tendencia : pystr) (g : Rng) :
  exists q g',
    generar_quiniela_con_tendencia partidos tendencia g = (Ok q, g') /\
    es_quiniela_de partidos q /\
    forall i p r, partidos !! i = Some p -> q !! i = Some r ->
      res_fecha r = default (u "Sin fecha") (fecha p) /\
      (prediccion r, (codigo r, simbolo r)) ∈ outcome_rows.
Proof.
  destruct (generar_quiniela_con_tendencia_completa partidos tendencia g)
    as (q & g' & Hq & HF).
  exists q, g'. split; [exact Hq |]. apply linea_completa_quiniela, HF.
Qed.

(** ** Statistics, continued *)

Lemma apariciones_tres (q : list Resultado) :
  Forall (fun r => prediccion r ∈ [u "Local"; u "Empate"; u "Visitante"]) q ->
  apariciones (u "Local") q + apariciones (u "Empate") q
  + apariciones (u "Visitante") q = length q.
Proof.
  unfold apariciones. induction 1 as [|r q Hr _ IH]; [reflexivity |].
  rewrite !filter_cons. cbn [length]. rewrite <- IH.
  apply elem_of_cons in Hr as [-> | Hr];
    [| apply elem_of_cons in Hr as [-> | Hr];
       [| apply elem_of_cons in Hr as [-> | Hr]; [| inversion Hr]]].
  - rewrite decide_True by reflexivity.
    rewrite !decide_False by (vm_compute; discriminate). cbn [length]. lia.
  - rewrite (decide_True (P := u "Empate" = u "Empate")) by reflexivity.
    rewrite !decide_False by (vm_compute; discriminate). cbn [length]. lia.
  - rewrite (decide_True (P := u "Visitante" = u "Visitante")) by reflexivity.
    rewrite !decide_False by (vm_compute; discriminate). cbn [length]. lia.
Qed.

Lemma contar_apariciones (q : list Resultado) (k : pystr) :
  default 0 (dict_get (contar q) k) = apariciones k q.
Proof.
  destruct (contar_desde q []) as (_ & _ & _ & Hcnt).
  exact (Hcnt k).
Qed.

Lemma linea_completa_tres (l : list (nat * Partido)) (q : list Resultado) :
  Forall2 linea_completa l q ->
  Forall (fun r => prediccion r ∈ [u "Local"; u "Empate"; u "Visitante"]) q.
Proof.
  induction 1 as [|ip r l q [[_ [_ [_ H]]] _] _ IH]; constructor; [| exact IH].
  unfold outcome_codes in H.
  apply elem_of_cons in H as [H | H];
    [| apply elem_of_cons in H as [H | H];
       [| apply elem_of_cons in H as [H | H]; [| inversion H]]];
    inversion H as [[Hp Hc]]; rewrite Hp.
  - left.
  - right; left.
  - right; right; left.
Qed.

(** X5. The statistics of a generated slip, whatever the bias: the
    function returns, the total is [min(|M|, 14)], no key of the counts is
    other than Local, Empate or Visitante, and the three counts (0 for an
    absent key) add up to the total. *)
Theorem estadisticas_de_generada
    (partidos : list Partido) (tendencia : pystr) (g : Rng) :
  exists q g' e,
    generar_quiniela_con_tendencia partidos tendencia g = (Ok q, g') /\
    calcular_estadisticas_quiniela q tt = (Ok e, tt) /\
    total_partidos e = Nat.min (length partidos) 14 /\
    (forall k, k ∈ keys (est_predicciones e) ->
       k ∈ [u "Local"; u "Empate"; u "Visitante"]) /\
    default 0 (dict_get (est_predicciones e) (u "Local"))
    + default 0 (dict_get (est_predicciones e) (u "Empate"))
    + default 0 (dict_get (est_predicciones e) (u "Visitante"))
    = total_partidos e.
Proof.
  destruct (generar_quiniela_con_tendencia_completa partidos tendencia g)
    as (q & g' & Hq & HF).
  pose proof (linea_completa_tres _ _ HF) as H3.
  eexists q, g', _. split; [exact Hq |].
  split; [apply calcular_estadisticas_quiniela_ok |].
  cbn [total_partidos est_predicciones].
  split; [| split].
  - rewrite <- (Forall2_length _ _ _ HF), enumerate_length, length_take. lia.
  - intros k Hk.
    destruct (contar_desde q []) as (_ & _ & Hkeys & _). cbn zeta in Hkeys.
    fold (contar q) in Hkeys. apply Hkeys in Hk as [Hk | (r & Hr & <-)];
      [inversion Hk |].
    rewrite Forall_forall in H3. apply H3, Hr.
  - rewrite !contar_apariciones. apply apariciones_tres, H3.
Qed.

(** ** The image of a slip *)

Section Imagen.
Import ImageExporter.

Context {Font : Type}.
Variable truetype : pystr -> Z -> result Font.
Variable load_default : Font.
Variable textbbox : pystr -> Font -> Z * Z * Z * Z.
Variable fecha_texto : pystr.

Local Notation draw_partido := (_draw_partido Font truetype load_default textbbox).
Local Notation draw_header := (_draw_header Font truetype load_default textbbox fecha_texto).
Local Notation draw_footer := (_draw_footer Font truetype load_default textbbox).
Local Notation filas' := (filas Font truetype load_default textbbox).
Local Notation imagen := (generar_imagen Font truetype load_default textbbox fecha_texto).

Ltac trazos_entre :=
  repeat (apply Forall_cons_2;
          [cbv beta iota delta [entre ImageExporter.width
             ImageExporter.header_height ImageExporter.row_height
             ImageExporter.footer_height]; lia |]);
  apply Forall_nil_2.

Lemma _draw_partido_entre (r : Resultado) (y : Z) (b : bool) :
  Forall (entre y (y + 50)) (draw_partido r y b).
Proof.
  unfold _draw_partido. apply Forall_app. split.
  - destruct b; [| constructor].
    constructor; [| constructor].
    cbv beta iota delta [entre]. unfold row_height. lia.
  - trazos_entre.
Qed.

Lemma entre_mono (lo lo' hi hi' : Z) (t : Trazo Font) :
  (lo' <= lo)%Z -> (hi <= hi')%Z -> entre lo hi t -> entre lo' hi' t.
Proof. intros H1 H2. destruct t; cbv beta iota delta [entre]; lia. Qed.

(** The rows from any position of the loop: where the offset ends and
    where row number [j] is drawn. *)
Lemma filas_desde (q : list Resultado) (n : nat) (y : Z) :
  let r := filas' (combine (seq n (length q)) q) y in
  snd r = (y + 50 * Z.of_nat (length q))%Z /\
  Forall (entre y (y + 50 * Z.of_nat (length q))) (fst r) /\
  forall j x, q !! j = Some x ->
    forall t,
      t ∈ draw_partido x (y + 50 * Z.of_nat j) ((n + j) mod 2 =? 0) ->
      t ∈ fst r.
Proof.
  revert n y. induction q as [|x q IH]; intros n y; cbn zeta.
  - cbn [length seq combine filas fst snd Z.of_nat].
    split; [lia |]. split; [constructor |]. intros j x H. discriminate.
  - cbn [length seq combine filas fst snd].
    destruct (IH (Datatypes.S n) (y + row_height)%Z) as (Hs & Hf & Hj).
    cbn zeta in Hs, Hf, Hj. unfold row_height in *.
    split; [rewrite Hs; lia |]. split.
    + apply Forall_app. split.
      * eapply Forall_impl; [apply _draw_partido_entre |].
        intros t. apply entre_mono; lia.
      * eapply Forall_impl; [exact Hf |].
        intros t. apply entre_mono; lia.
    + intros [|j] x' Hx' t Ht; apply elem_of_app.
      * left. inversion Hx'; subst x'.
        rewrite Nat.add_0_r, Z.mul_0_r, Z.add_0_r in Ht. exact Ht.
      * right. apply (Hj j x' Hx' t).
        replace (y + 50 + 50 * Z.of_nat j)%Z
          with (y + 50 * Z.of_nat (Datatypes.S j))%Z by lia.
        replace (Datatypes.S n + j) with (n + Datatypes.S j) by lia.
        exact Ht.
Qed.

Lemma mod2_even (j : nat) : (j mod 2 =? 0) = Nat.even j.
Proof.
  destruct (Nat.even j) eqn:E.
  - apply Nat.eqb_eq. apply Nat.even_spec in E.
    destruct E as [k ->]. rewrite Nat.mul_comm. apply Nat.Div0.mod_mul.
  - apply Nat.eqb_neq. intros Hm.
    apply Nat.Div0.mod_divides in Hm as [k Hk].
    assert (Nat.even j = true) by (apply Nat.even_spec; exists k; exact Hk).
    congruence.
Qed.

(** The rows of the loop in closed form: row [j] is drawn at
    [y + 50 j]. *)
Lemma filas_concat (q : list Resultado) (n : nat) (y : Z) :
  fst (filas' (combine (seq n (length q)) q) y)
  = concat (imap (fun j r =>
                    draw_partido r (y + 50 * Z.of_nat j) ((n + j) mod 2 =? 0))
              q).
Proof.
  revert n y. induction q as [|x q IH]; intros n y; [reflexivity |].
  cbn [length seq combine filas fst]. rewrite imap_cons. cbn [concat].
  rewrite Nat.add_0_r, Z.mul_0_r, Z.add_0_r. f_equal.
  rewrite (IH (Datatypes.S n) (y + row_height)%Z). f_equal.
  apply imap_ext. intros j r _. unfold compose, row_height.
  f_equal; [lia |]. f_equal. f_equal. lia.
Qed.

(** The shading of a row is the only rectangle of its colour that
    [_draw_partido] draws. *)
Lemma sombra_en_fila (r : Resultado) (y y' : Z) (b : bool) :
  Rectangle Font 0 y' 800 (y' + 50) color_gris_claro None
    ∈ draw_partido r y b
  <-> b = true /\ y' = y.
Proof.
  unfold _draw_partido. rewrite elem_of_app. split.
  - intros [H | H].
    + destruct b; [| inversion H].
      apply list_elem_of_singleton in H. inversion H. split; reflexivity.
    + exfalso. repeat (apply elem_of_cons in H as [H | H]; [discriminate |]).
      inversion H.
  - intros [-> ->]. left. apply list_elem_of_singleton. reflexivity.
Qed.

Lemma elem_of_concat_imap {A B} (f : nat -> A -> list B) (l : list A) (x : B) :
  x ∈ concat (imap f l) <-> exists j a, l !! j = Some a /\ x ∈ f j a.
Proof.
  revert f. induction l as [|a l IH]; intros f.
  - cbn. split; [intros H; inversion H | intros (j & b & H & _); discriminate].
  - rewrite imap_cons. cbn [concat]. rewrite elem_of_app, IH. split.
    + intros [H | (j & b & Hj & H)].
      * exists 0, a. split; [reflexivity | exact H].
      * exists (Datatypes.S j), b. split; [exact Hj | exact H].
    + intros ([|j] & b & Hj & H).
      * inversion Hj; subst. left. exact H.
      * right. exists j, b. split; [exact Hj | exact H].
Qed.

(** X6. The image of a slip of [n] lines is 800 wide and [200 + 50 n]
    high; nothing is drawn above or below it. What is drawn is the
    header, then for each line number [j] (from 0), in order, what
    [_draw_partido] draws for it in the band that starts at [120 + 50 j]
    and is 50 high, shaded exactly when [j] is even, then the foot at
    [120 + 50 n]: the shading of a band is in the image if and only if the
    band is that of an even line of the slip. *)
Theorem generar_imagen_bandas (quiniela : list Resultado) (numero : Z) :
  let img := imagen quiniela numero in
  ancho Font img = 800%Z /\
  alto Font img = (200 + 50 * Z.of_nat (length quiniela))%Z /\
  Forall (entre 0 (alto Font img)) (trazos Font img) /\
  (forall j r, quiniela !! j = Some r ->
     let y := (120 + 50 * Z.of_nat j)%Z in
     Forall (entre y (y + 50)) (draw_partido r y (Nat.even j)) /\
     forall t, t ∈ draw_partido r y (Nat.even j) -> t ∈ trazos Font img) /\
  trazos Font img
  = draw_header numero
    ++ concat (imap (fun j r =>
                       draw_partido r (120 + 50 * Z.of_nat j) (Nat.even j))
                 quiniela)
    ++ draw_footer quiniela (120 + 50 * Z.of_nat (length quiniela)) /\
  (forall r y y' b,
     Rectangle Font 0 y' 800 (y' + 50) color_gris_claro None
       ∈ draw_partido r y b
     <-> b = true /\ y' = y) /\
  forall y,
    Rectangle Font 0 y 800 (y + 50) color_gris_claro None ∈ trazos Font img
    <-> exists j, j < length quiniela /\ Nat.even j = true /\
                  y = (120 + 50 * Z.of_nat j)%Z.
Proof.
  cbn zeta.
  assert (Heq : trazos Font (imagen quiniela numero)
                = draw_header numero
                  ++ concat (imap (fun j r =>
                                     draw_partido r (120 + 50 * Z.of_nat j)
                                       (Nat.even j)) quiniela)
                  ++ draw_footer quiniela
                       (120 + 50 * Z.of_nat (length quiniela))).
  { unfold generar_imagen. cbn [trazos].
    destruct (filas_desde quiniela 0 header_height) as (Hs & _ & _).
    cbn zeta in Hs. fold (enumerate quiniela) in Hs. rewrite Hs.
    unfold enumerate. rewrite filas_concat. unfold header_height.
    f_equal. f_equal. f_equal. apply imap_ext. intros j r _.
    rewrite mod2_even. reflexivity. }
  split; [reflexivity |].
  unfold generar_imagen at 1 2. cbn [ancho alto].
  destruct (filas_desde quiniela 0 header_height) as (Hs & Hf & Hj).
  cbn zeta in Hs, Hf, Hj. fold (enumerate quiniela) in Hs, Hf, Hj.
  split; [unfold header_height, row_height, footer_height; lia |].
  split; [| split; [| split; [exact Heq | split; [apply sombra_en_fila |]]]].
  - unfold generar_imagen. cbn [trazos].
    unfold width, header_height, row_height, footer_height in *.
    apply Forall_app. split.
    + unfold _draw_header. trazos_entre.
    + apply Forall_app. split.
      * eapply Forall_impl; [exact Hf |]. intros t. apply entre_mono; lia.
      * rewrite Hs. unfold _draw_footer. trazos_entre.
  - intros j r Hr. split; [apply _draw_partido_entre |].
    intros t Ht. rewrite Heq. apply elem_of_app. right. apply elem_of_app.
    left. apply elem_of_concat_imap. exists j, r. split; assumption.
  - intros y. rewrite Heq, !elem_of_app, elem_of_concat_imap. split.
    + intros [H | [(j & r & Hr & H) | H]].
      * exfalso. unfold _draw_header in H.
        apply elem_of_cons in H as [H | H]; [inversion H |].
        repeat (apply elem_of_cons in H as [H | H]; [discriminate |]).
        inversion H.
      * apply sombra_en_fila in H as [He ->].
        exists j. split; [apply lookup_lt_Some in Hr; exact Hr |].
        split; [exact He | reflexivity].
      * exfalso. unfold _draw_footer in H.
        repeat (apply elem_of_cons in H as [H | H]; [discriminate |]).
        inversion H.
    + intros (j & Hlt & He & ->). right. left.
      apply lookup_lt_is_Some in Hlt as [r Hr].
      exists j, r. split; [exact Hr |].
      apply sombra_en_fila. split; [exact He | reflexivity].
Qed.

End Imagen.



(** ** The scraper, continued *)

Lemma lstrip_spec (s : pystr) :
  exists pre, s = pre ++ lstrip s /\ sin_espacio_inicial (lstrip s).
Proof.
  induction s as [|c s (pre & Hs & Hi)].
  - exists []. split; [reflexivity | exact I].
  - cbn [lstrip]. destruct (isspace c) eqn:E.
    + exists (c :: pre). split; [cbn; f_equal; exact Hs | exact Hi].
    + exists []. split; [reflexivity | exact E].
Qed.

Lemma sin_espacio_inicial_app (a b : pystr) :
  a <> [] -> sin_espacio_inicial (a ++ b) -> sin_espacio_inicial a.
Proof. destruct a; [congruence | trivial]. Qed.

Lemma strip_recortado (s : pystr) : recortado (strip s).
Proof.
  unfold strip, recortado.
  destruct (lstrip_spec s) as (pre1 & _ & H1).
  destruct (lstrip_spec (rev (lstrip s))) as (pre2 & H2 & H3).
  set (b := lstrip (rev (lstrip s))) in *.
  rewrite rev_involutive. split; [| exact H3].
  destruct (decide (rev b = [])) as [-> | Hne]; [exact I |].
  apply (sin_espacio_inicial_app (rev b) (rev pre2) Hne).
  rewrite <- rev_app_distr, <- H2, rev_involutive. exact H1.
Qed.

Lemma es_valido_valido (p : Partido) : es_valido p = true -> partido_valido p.
Proof.
  unfold es_valido, partido_valido. intros H.
  apply andb_true_iff in H as [H H3]. apply andb_true_iff in H as [H1 H2].
  apply Nat.ltb_lt in H1, H2. apply negb_true_iff in H3.
  apply bool_decide_eq_false in H3. tauto.
Qed.

Lemma partidos_de_extraidos (ms : list (pystr * pystr)) (p : Partido) :
  p ∈ partidos_de ms ->
  recortado (local p) /\ recortado (visitante p) /\
  fecha p = Some proxima_jornada.
Proof.
  unfold partidos_de. intros H.
  apply list_elem_of_fmap in H as (m & -> & _). cbn.
  split; [apply strip_recortado |]. split; [apply strip_recortado | reflexivity].
Qed.

Lemma primer_grupo_extraidos (patterns : list (list Element)) (p : Partido) :
  p ∈ primer_grupo patterns ->
  recortado (local p) /\ recortado (visitante p) /\
  fecha p = Some proxima_jornada.
Proof.
  induction patterns as [|grp rest IH]; [intros H; inversion H |].
  cbn [primer_grupo].
  destruct (pares_de_grupo grp) as [|q qs] eqn:E; [exact IH |].
  rewrite <- E. unfold pares_de_grupo. intros H.
  apply list_elem_of_In, in_flat_map in H as (el & _ & H).
  apply list_elem_of_In in H.
  destruct el; apply (partidos_de_extraidos _ _ H).
Qed.

Lemma _scrape_with_requests_extraidos
    (requests_get : M Rng (list (list Element))) (g : Rng) :
  exists ps g',
    _scrape_with_requests requests_get g = (Ok ps, g') /\
    length ps <= 14 /\ Forall partido_extraido ps.
Proof.
  unfold _scrape_with_requests, try_except, bind.
  destruct (requests_get g) as [[patterns | e] g'].
  - unfold ret. rewrite recorrer_primer_grupo, filtrar_take by (cbn; lia).
    eexists _, _. split; [reflexivity |]. split.
    + cbn [app length]. rewrite length_take. lia.
    + cbn [app]. apply Forall_forall. intros p Hp.
      apply subseteq_take, list_elem_of_filter in Hp as [Hv Hp].
      split; [apply es_valido_valido, Is_true_true, Hv |].
      apply (primer_grupo_extraidos _ _ Hp).
  - exists [], g'. split; [reflexivity |]. split; [cbn; lia | constructor].
Qed.

(** X9. Whatever the download gives, [_scrape_with_requests] returns
    without raising at most 14 matches, and in each of them both names
    are longer than 2, differ, carry no white space at either end, and the
    date is "Próxima jornada". *)
Theorem _scrape_with_requests_validos
    (requests_get : M Rng (list (list Element))) (g : Rng) :
  exists ps g',
    _scrape_with_requests requests_get g = (Ok ps, g') /\
    length ps <= 14 /\ Forall partido_extraido ps.
Proof. apply _scrape_with_requests_extraidos. Qed.

Lemma acumular_inv (ms : list (pystr * pystr)) (acc : list Partido) :
  length acc < 14 -> Forall partido_extraido acc ->
  length (acumular ms acc) <= 14 /\ Forall partido_extraido (acumular ms acc).
Proof.
  revert acc. induction ms as [|m ms IH]; intros acc Hlen Hall;
    [split; [cbn; lia | exact Hall] |].
  cbn [acumular].
  destruct (negb (bool_decide (strip m.1 = strip m.2))
            && (2 <? length (strip m.1)) && (2 <? length (strip m.2))) eqn:E;
    [| apply IH; assumption].
  apply andb_true_iff in E as [E H3]. apply andb_true_iff in E as [H1 H2].
  apply Nat.ltb_lt in H2, H3. apply negb_true_iff, bool_decide_eq_false in H1.
  set (acc' := acc ++ [mkPartido (strip m.1) (strip m.2) (Some proxima_jornada)]).
  assert (Hall' : Forall partido_extraido acc').
  { apply Forall_app. split; [exact Hall |]. constructor; [| constructor].
    split; [split; [exact H2 | split; [exact H3 | exact H1]] |].
    split; [apply strip_recortado |].
    split; [apply strip_recortado | reflexivity]. }
  assert (Hlen' : length acc' = length acc + 1).
  { subst acc'. rewrite length_app. reflexivity. }
  destruct (14 <=? length acc') eqn:E14.
  - split; [lia | exact Hall'].
  - apply Nat.leb_gt in E14. apply IH; [lia | exact Hall'].
Qed.

Lemma por_lineas_inv (findall_lineas : pystr -> list (pystr * pystr))
    (lines : list pystr) (acc : list Partido) :
  length acc < 14 -> Forall partido_extraido acc ->
  length (por_lineas findall_lineas lines acc) <= 14 /\
  Forall partido_extraido (por_lineas findall_lineas lines acc).
Proof.
  revert acc. induction lines as [|line lines IH]; intros acc Hlen Hall;
    [split; [cbn; lia | exact Hall] |].
  cbn [por_lineas].
  destruct (acumular_inv (findall_lineas line) acc Hlen Hall) as [H1 H2].
  destruct (14 <=? length (acumular (findall_lineas line) acc)) eqn:E14.
  - split; assumption.
  - apply Nat.leb_gt in E14. apply IH; assumption.
Qed.

Lemma _scrape_with_trafilatura_extraidos
    (trafilatura_text : M Rng (option pystr))
    (findall_lineas : pystr -> list (pystr * pystr)) (g : Rng) :
  exists ps g',
    _scrape_with_trafilatura trafilatura_text findall_lineas g = (Ok ps, g') /\
    length ps <= 14 /\ Forall partido_extraido ps.
Proof.
  unfold _scrape_with_trafilatura, try_except, bind.
  destruct (trafilatura_text g) as [[[text |] | e] g'].
  - unfold ret.
    destruct (por_lineas_inv findall_lineas (split_lines text []) [])
      as [H1 H2]; [cbn; lia | constructor |].
    eexists _, _. split; [reflexivity |]. split; assumption.
  - exists [], g'. split; [reflexivity |]. split; [cbn; lia | constructor].
  - exists [], g'. split; [reflexivity |]. split; [cbn; lia | constructor].
Qed.

(** X10. Whatever the download, the extraction and the pattern give,
    [_scrape_with_trafilatura] returns without raising at most 14 matches,
    and in each of them both names are longer than 2, differ, carry no
    white space at either end, and the date is "Próxima jornada". *)
Theorem _scrape_with_trafilatura_validos
    (trafilatura_text : M Rng (option pystr))
    (findall_lineas : pystr -> list (pystr * pystr)) (g : Rng) :
  exists ps g',
    _scrape_with_trafilatura trafilatura_text findall_lineas g = (Ok ps, g') /\
    length ps <= 14 /\ Forall partido_extraido ps.
Proof. apply _scrape_with_trafilatura_extraidos. Qed.

Lemma todos_largos : Forall (fun e : pystr => 2 < length e) todos.
Proof.
  apply Forall_forall. intros e He.
  assert (H : forallb (fun e : pystr => 2 <? length e) todos = true)
    by (vm_compute; reflexivity).
  rewrite forallb_forall in H. apply Nat.ltb_lt, H, list_elem_of_In, He.
Qed.

Lemma equipos_elem (ps : list Partido) (p : Partido) :
  p ∈ ps -> local p ∈ equipos ps /\ visitante p ∈ equipos ps.
Proof.
  induction ps as [|q ps IH]; intros H; [inversion H |].
  change (equipos (q :: ps)) with (local q :: visitante q :: equipos ps).
  apply elem_of_cons in H as [-> | H].
  - split; [left | right; left].
  - destruct (IH H). split; right; right; assumption.
Qed.

Lemma _generate_sample_partidos_validos (g : Rng) :
  exists ps g',
    _generate_sample_partidos g = (Ok ps, g') /\
    length ps = 14 /\ Forall partido_valido ps.
Proof.
  destruct (_generate_sample_partidos_Inv g) as (st & g' & Hg & HI).
  exists (partidos st), g'. split; [exact Hg |].
  split; [apply (inv_length _ _ HI) |].
  apply Forall_forall. intros p Hp.
  destruct (equipos_elem _ _ Hp) as [Hl Hv].
  pose proof todos_largos as HL. rewrite Forall_forall in HL.
  apply list_elem_of_lookup_1 in Hp as [i Hi].
  split; [apply HL, (inv_pool _ _ HI), Hl |].
  split; [apply HL, (inv_pool _ _ HI), Hv |].
  apply (inv_pares _ _ HI i p Hi).
Qed.

Lemma get_partidos_validos
    (requests_get : M Rng (list (list Element)))
    (trafilatura_text : M Rng (option pystr))
    (findall_lineas : pystr -> list (pystr * pystr)) (g : Rng) :
  exists ps g',
    get_partidos requests_get trafilatura_text findall_lineas g = (Ok ps, g') /\
    1 <= length ps <= 14 /\ Forall partido_valido ps.
Proof.
  assert (HE : forall ps, Forall partido_extraido ps -> Forall partido_valido ps).
  { intros ps H. eapply Forall_impl; [exact H |]. intros p [Hp _]. exact Hp. }
  unfold get_partidos, get_partidos_con, try_except, bind.
  destruct (_scrape_with_requests_extraidos requests_get g)
    as (ps1 & g1 & H1 & Hl1 & Hv1).
  rewrite H1. destruct ps1 as [|p1 ps1].
  - destruct (_scrape_with_trafilatura_extraidos trafilatura_text
                findall_lineas g1) as (ps2 & g2 & H2 & Hl2 & Hv2).
    rewrite H2. destruct ps2 as [|p2 ps2].
    + destruct (_generate_sample_partidos_validos g2) as (ps & g3 & H & Hl & Hv).
      rewrite H. exists ps, g3. split; [reflexivity |]. split; [lia | exact Hv].
    + exists (p2 :: ps2), g2. split; [reflexivity |].
      split; [cbn in *; lia | apply HE, Hv2].
  - exists (p1 :: ps1), g1. split; [reflexivity |].
    split; [cbn in *; lia | apply HE, Hv1].
Qed.

(** X11. Whatever the network gives, [get_partidos] returns without
    raising a list of at least 1 and at most 14 matches, and in each of
    them both names are longer than 2 and differ. *)
Theorem get_partidos_nunca_vacio
    (requests_get : M Rng (list (list Element)))
    (trafilatura_text : M Rng (option pystr))
    (findall_lineas : pystr -> list (pystr * pystr)) (g : Rng) :
  exists ps g',
    get_partidos requests_get trafilatura_text findall_lineas g = (Ok ps, g') /\
    1 <= length ps <= 14 /\ Forall partido_valido ps.
Proof. apply get_partidos_validos. Qed.

(** X12. An iteration of the loop of [_generate_sample_partidos] that
    finds at least two unused names leaves the list of all teams as it
    is; one that finds fewer draws from the list of all teams itself and
    removes the home team it drew from it, so the list is one name shorter
    afterwards. *)
Theorem paso_todos_los_equipos (st : Muestra) (i : nat) (g : Rng) :
  match paso st i g with
  | (Ok st', _) =>
      if agotado st then
        length (todos_los_equipos st)
        = Datatypes.S (length (todos_los_equipos st')) /\
        exists p, partidos st' = partidos st ++ [p] /\
          local p ∈ todos_los_equipos st /\
          (NoDup (todos_los_equipos st) -> local p ∉ todos_los_equipos st')
      else todos_los_equipos st' = todos_los_equipos st
  | (Raise _, _) => True
  end.
Proof.
  unfold paso, agotado.
  destruct (length (filter (fun e => e ∉ equipos_usados st)
                      (todos_los_equipos st)) <? 2).
  - unfold bind at 1.
    destruct (choice (todos_los_equipos st) g) as [[loc | e] g1] eqn:Ec;
      [| exact I].
    assert (Hlin : loc ∈ todos_los_equipos st).
    { destruct (todos_los_equipos st) as [|a l] eqn:El; [discriminate |].
      destruct (choice_elem (a :: l) g ltac:(discriminate)) as (x & Hx & Hin).
      rewrite Hx in Ec. inversion Ec; subst. exact Hin. }
    destruct (list_remove_ok loc (todos_los_equipos st) g1 Hlin)
      as (d' & Hd' & Hlen' & _ & Hout).
    unfold bind at 1. rewrite Hd'. unfold bind at 1.
    destruct (choice d' g1) as [[vis | e] g2]; [| exact I].
    cbn [ret todos_los_equipos partidos].
    split; [exact Hlen' |].
    eexists. split; [reflexivity |]. cbn [local]. split; assumption.
  - unfold bind at 1.
    destruct (choice _ g) as [[loc | e] g1]; [| exact I].
    unfold bind at 1.
    destruct (list_remove loc _ g1) as [[d' | e] g1']; [| exact I].
    unfold bind at 1.
    destruct (choice d' g1') as [[vis | e] g2]; [| exact I].
    reflexivity.
Qed.

(** ** The information of the draw *)

Section Info.
Import Sorteo.


Variable re_findall : pystr -> pystr -> list pystr.
Variable strftime : Z -> pystr.

Local Notation info_de := (get_info_sorteo re_findall strftime).

(** X14. [get_info_sorteo] never raises. When the download fails it
    returns the default information and leaves the cache as it was. When
    it succeeds, the cache afterwards holds each of the four fields it
    returns under its key (the key of the draw number is new) and every
    other key as before. *)
Theorem get_info_sorteo_cache (descarga : result pystr) (hoy : Z)
    (cache : list (pystr * option pystr)) :
  match descarga with
  | Raise _ =>
      info_de descarga hoy cache = (Ok (_get_default_info strftime hoy), cache)
  | Ok text =>
      exists info cache',
        info_de descarga hoy cache = (Ok info, cache') /\
        dict_get cache' (u "premios") = Some (Some (i_premios info)) /\
        dict_get cache' (u "fecha_sorteo") = Some (Some (i_fecha_sorteo info)) /\
        dict_get cache' (u "jornada") = Some (Some (i_jornada info)) /\
        dict_get cache' (u "numero_sorteo")
          = Some (Some (i_numero_sorteo info)) /\
        forall k,
          k ∉ [u "premios"; u "fecha_sorteo"; u "jornada"; u "numero_sorteo"] ->
          dict_get cache' k = dict_get cache k
  end.
Proof.
  destruct descarga as [text | e]; [| reflexivity].
  eexists _, _. split; [reflexivity |].
  cbn [i_premios i_fecha_sorteo i_jornada i_numero_sorteo].
  assert (N1 : u "numero_sorteo" <> u "jornada") by (vm_compute; discriminate).
  assert (N2 : u "numero_sorteo" <> u "fecha_sorteo") by (vm_compute; discriminate).
  assert (N3 : u "numero_sorteo" <> u "premios") by (vm_compute; discriminate).
  assert (N4 : u "jornada" <> u "fecha_sorteo") by (vm_compute; discriminate).
  assert (N5 : u "jornada" <> u "premios") by (vm_compute; discriminate).
  assert (N6 : u "fecha_sorteo" <> u "premios") by (vm_compute; discriminate).
  split; [| split; [| split; [| split]]].
  - rewrite !dict_get_set_ne by assumption. apply dict_get_set_eq.
  - rewrite !dict_get_set_ne by assumption. apply dict_get_set_eq.
  - rewrite !dict_get_set_ne by assumption. apply dict_get_set_eq.
  - apply dict_get_set_eq.
  - intros k Hk. rewrite !not_elem_of_cons in Hk.
    destruct Hk as (K1 & K2 & K3 & K4 & _).
    rewrite !dict_get_set_ne by congruence. reflexivity.
Qed.

End Info.

(** X15. On a page where the patterns "jornada" and "concurso" find
    nothing and the pattern "sorteo" finds a number, the round shown is
    "Jornada " followed by that number, which is also the draw number. *)
Theorem jornada_de_sorteo
    (re_findall : pystr -> pystr -> list pystr) (text m : pystr)
    (ms : list pystr) :
  re_findall (u "jornada\s*#?\s*(\d+)") text = [] ->
  re_findall (u "concurso\s*#?\s*(\d+)") text = [] ->
  re_findall (u "sorteo\s*#?\s*(\d+)") text = m :: ms ->
  Sorteo._extract_jornada re_findall text = u "Jornada " ++ m /\
  Sorteo._extract_numero_sorteo re_findall text = m.
Proof.
  intros H1 H2 H3.
  unfold Sorteo._extract_jornada, Sorteo._extract_numero_sorteo.
  unfold Sorteo.jornada_patterns, Sorteo.sorteo_patterns.
  cbn [Sorteo.primero]. rewrite H1, H2, H3. split; reflexivity.
Qed.

Lemma jornada_de_sorteo_witness :
  Sorteo._extract_jornada findall_solo_sorteo (u "Sorteo 2301")
  = u "Jornada " ++ u "2301" /\
  Sorteo._extract_numero_sorteo findall_solo_sorteo (u "Sorteo 2301")
  = u "2301".
Proof.
  apply (jornada_de_sorteo findall_solo_sorteo (u "Sorteo 2301") (u "2301") []);
    vm_compute; reflexivity.
Defined.

(** X16. A page on which none of the patterns of the source matches gives
    the date, the round and the draw number of a failed download (the
    next Sunday, "Jornada actual", "N/A"), but not its prize text:
    "Premio: Consultar página oficial" instead of "Premio acumulado -
    Consultar página oficial". *)
Theorem get_info_sorteo_sin_coincidencias
    (re_findall : pystr -> pystr -> list pystr) (strftime : Z -> pystr)
    (text : pystr) (hoy : Z) (cache : list (pystr * option pystr)) :
  (forall pattern, pattern ∈ patrones -> re_findall pattern text = []) ->
  exists info cache',
    Sorteo.get_info_sorteo re_findall strftime (Ok text) hoy cache
      = (Ok info, cache') /\
    let d := Sorteo._get_default_info strftime hoy in
    Sorteo.i_fecha_sorteo info = Sorteo.i_fecha_sorteo d /\
    Sorteo.i_jornada info = Sorteo.i_jornada d /\
    Sorteo.i_numero_sorteo info = Sorteo.i_numero_sorteo d /\
    Sorteo.i_premios info = u "Premio: Consultar página oficial" /\
    Sorteo.i_premios info <> Sorteo.i_premios d.
Proof.
  intros H.
  assert (P : forall ps, (forall p, p ∈ ps -> p ∈ patrones) ->
              Sorteo.primero re_findall ps text = None).
  { induction ps as [|p ps IH]; intros Hsub; [reflexivity |].
    cbn [Sorteo.primero]. rewrite (H p) by (apply Hsub; left).
    apply IH. intros q Hq. apply Hsub. right. exact Hq. }
  eexists _, _. split; [reflexivity |].
  cbn [Sorteo.i_fecha_sorteo Sorteo.i_jornada Sorteo.i_numero_sorteo
       Sorteo.i_premios Sorteo._get_default_info].
  unfold Sorteo._extract_fecha_sorteo, Sorteo._extract_jornada,
    Sorteo._extract_numero_sorteo, Sorteo._extract_premios.
  rewrite !P; unfold patrones.
  - repeat split. vm_compute. discriminate.
  - intros p Hp. rewrite !elem_of_app. tauto.
  - intros p Hp. rewrite !elem_of_app. tauto.
  - intros p Hp. rewrite !elem_of_app. tauto.
  - intros p Hp. rewrite !elem_of_app. tauto.
Qed.

Lemma patrones_no_vacios (pattern : pystr) :
  pattern ∈ patrones -> pattern <> [].
Proof.
  intros Hin ->. unfold patrones, Sorteo.premio_patterns,
    Sorteo.fecha_patterns, Sorteo.jornada_patterns, Sorteo.sorteo_patterns
    in Hin. cbn [app] in Hin.
  repeat (apply elem_of_cons in Hin as [Hin | Hin]; [discriminate Hin |]).
  inversion Hin.
Defined.

Lemma get_info_sorteo_sin_coincidencias_witness :
  exists info cache',
    Sorteo.get_info_sorteo findall_progol strftime0 (Ok (u "Progol")) 739000
      Sorteo.info_cache0 = (Ok info, cache') /\
    let d := Sorteo._get_default_info strftime0 739000 in
    Sorteo.i_fecha_sorteo info = Sorteo.i_fecha_sorteo d /\
    Sorteo.i_jornada info = Sorteo.i_jornada d /\
    Sorteo.i_numero_sorteo info = Sorteo.i_numero_sorteo d /\
    Sorteo.i_premios info = u "Premio: Consultar página oficial" /\
    Sorteo.i_premios info <> Sorteo.i_premios d.
Proof.
  apply (get_info_sorteo_sin_coincidencias findall_progol strftime0
           (u "Progol") 739000 Sorteo.info_cache0).
  intros pattern Hin. unfold findall_progol.
  rewrite decide_False by (apply patrones_no_vacios, Hin). reflexivity.
Defined.

(** ** The slip store, continued *)

Lemma guardar_quiniela_casos (self : QuinielaDatabase)
    (quiniela : list Resultado) (srv : Server) :
  exists r srv',
    guardar_quiniela self quiniela srv = (Ok r, srv') /\
    ((quinielas srv' = quinielas srv /\ r = None /\
      (quinielas_id_seq srv <= quinielas_id_seq srv'
       <= quinielas_id_seq srv + 1)%Z) \/
     (exists t,
        quinielas srv'
        = quinielas srv
          ++ [mkRow (quinielas_id_seq srv) t (Z.of_nat (length quiniela))
                quiniela] /\
        quinielas_id_seq srv' = (quinielas_id_seq srv + 1)%Z /\
        (r = None \/ r = Some (quinielas_id_seq srv)))).
Proof.
  unfold guardar_quiniela.
  destruct (db_available self); cbn [negb];
    [| eexists _, _; split; [reflexivity |]; left;
       split; [reflexivity |]; split; [reflexivity | lia]].
  desplegar.
  repeat (falla; desplegar);
    (eexists _, _; split; [reflexivity |]);
    cbn [quinielas quinielas_id_seq];
    first [ left; split; [reflexivity |]; split; [reflexivity | lia]
          | right; eexists; split; [reflexivity |]; split; [reflexivity |];
            first [left; reflexivity | right; reflexivity] ].
Qed.

Lemma obtener_estadisticas_casos (self : QuinielaDatabase) (srv : Server) :
  exists r srv',
    obtener_estadisticas self srv = (Ok r, srv') /\
    quinielas srv' = quinielas srv /\
    quinielas_id_seq srv' = quinielas_id_seq srv.
Proof.
  unfold obtener_estadisticas.
  destruct (db_available self); cbn [negb];
    [| eexists _, _; repeat split; reflexivity].
  desplegar.
  repeat (falla; desplegar); eexists _, _; repeat split; reflexivity.
Qed.

Lemma __init___casos (environ : list (pystr * pystr)) (srv : Server) :
  exists self srv',
    __init__ environ srv = (Ok self, srv') /\
    database_url self = dict_get environ (u "DATABASE_URL") /\
    quinielas srv' = quinielas srv /\
    quinielas_id_seq srv' = quinielas_id_seq srv.
Proof.
  unfold __init__.
  destruct (bool_decide (dict_get environ (u "DATABASE_URL") <> None));
    [| eexists _, _; repeat split; reflexivity].
  unfold _init_database. desplegar.
  repeat (falla; desplegar); eexists _, _; repeat split; reflexivity.
Qed.

Lemma lecturas_casos (self : QuinielaDatabase) (limite quiniela_id : Z)
    (srv : Server) :
  (exists l srv',
     obtener_quinielas self limite srv = (Ok l, srv') /\
     quinielas srv' = quinielas srv /\
     quinielas_id_seq srv' = quinielas_id_seq srv) /\
  (exists o srv',
     obtener_quiniela_por_id self quiniela_id srv = (Ok o, srv') /\
     quinielas srv' = quinielas srv /\
     quinielas_id_seq srv' = quinielas_id_seq srv).
Proof.
  split.
  - unfold obtener_quinielas.
    destruct (db_available self); cbn [negb];
      [| eexists _, _; repeat split; reflexivity].
    desplegar.
    destruct (limite <? 0)%Z;
      repeat (falla; desplegar); eexists _, _; repeat split; reflexivity.
  - unfold obtener_quiniela_por_id.
    destruct (db_available self); cbn [negb];
      [| eexists _, _; repeat split; reflexivity].
    desplegar.
    repeat (falla; desplegar); eexists _, _; repeat split; reflexivity.
Qed.

(** X17. No operation of the store raises, whichever calls of the driver
    fail: building the object, saving, listing, fetching by identifier and
    the statistics all return a value. *)
Theorem persistencia_nunca_lanza
    (environ : list (pystr * pystr)) (self : QuinielaDatabase)
    (quiniela : list Resultado) (limite quiniela_id : Z) (srv : Server) :
  (exists o srv', __init__ environ srv = (Ok o, srv')) /\
  (exists r srv', guardar_quiniela self quiniela srv = (Ok r, srv')) /\
  (exists l srv', obtener_quinielas self limite srv = (Ok l, srv')) /\
  (exists o srv',
     obtener_quiniela_por_id self quiniela_id srv = (Ok o, srv')) /\
  (exists r srv', obtener_estadisticas self srv = (Ok r, srv')).
Proof.
  destruct (__init___casos environ srv) as (o & s1 & H1 & _).
  destruct (guardar_quiniela_casos self quiniela srv) as (r & s2 & H2 & _).
  destruct (lecturas_casos self limite quiniela_id srv)
    as [(l & s3 & H3 & _) (o4 & s4 & H4 & _)].
  destruct (obtener_estadisticas_casos self srv) as (r5 & s5 & H5 & _).
  repeat split; eexists _, _; eassumption.
Qed.

(** X18. Building the object, listing, fetching by identifier and the
    statistics never change the stored rows nor the sequence of
    identifiers, whether the driver fails or not. *)
Theorem lecturas_no_modifican
    (environ : list (pystr * pystr)) (self : QuinielaDatabase)
    (limite quiniela_id : Z) (srv : Server) :
  let igual (srv' : Server) :=
    quinielas srv' = quinielas srv /\
    quinielas_id_seq srv' = quinielas_id_seq srv in
  igual (snd (__init__ environ srv)) /\
  igual (snd (obtener_quinielas self limite srv)) /\
  igual (snd (obtener_quiniela_por_id self quiniela_id srv)) /\
  igual (snd (obtener_estadisticas self srv)).
Proof.
  cbv zeta.
  destruct (__init___casos environ srv) as (o & s1 & H1 & _ & Ha & Hb).
  destruct (lecturas_casos self limite quiniela_id srv)
    as [(l & s3 & H3 & Hc & Hd) (o4 & s4 & H4 & He & Hf)].
  destruct (obtener_estadisticas_casos self srv) as (r5 & s5 & H5 & Hg & Hh).
  rewrite H1, H3, H4, H5. cbn [snd]. tauto.
Qed.

Lemma ids_bien_filter (srv srv' : Server) (quiniela_id : Z) :
  ids_bien srv ->
  quinielas srv' = filter (fun r => id r <> quiniela_id) (quinielas srv) ->
  quinielas_id_seq srv' = quinielas_id_seq srv ->
  ids_bien srv'.
Proof.
  intros [Hnd Hlt] Hq Hs. unfold ids_bien. rewrite Hq, Hs. split.
  - clear - Hnd. induction (quinielas srv) as [|r l IH]; [constructor |].
    cbn [map] in Hnd. apply NoDup_cons in Hnd as [Hr Hnd].
    rewrite filter_cons. destruct (decide (id r <> quiniela_id));
      [| apply IH, Hnd].
    cbn [map]. apply NoDup_cons. split; [| apply IH, Hnd].
    intros H. apply Hr. apply list_elem_of_fmap in H as (x & Hx & Hin).
    apply list_elem_of_filter in Hin as [_ Hin].
    rewrite Hx. apply (list_elem_of_fmap_2 id _ _ Hin).
  - intros r Hr. apply list_elem_of_filter in Hr as [_ Hr]. apply Hlt, Hr.
Qed.

Lemma eliminar_quiniela_seq (self : QuinielaDatabase) (quiniela_id : Z)
    (srv : Server) :
  quinielas_id_seq (snd (eliminar_quiniela self quiniela_id srv))
  = quinielas_id_seq srv.
Proof.
  unfold eliminar_quiniela.
  destruct (db_available self); cbn [negb]; [| reflexivity].
  desplegar. repeat (falla; desplegar); reflexivity.
Qed.

(** X19. Saving and deleting keep the identifiers of the stored rows
    pairwise distinct and below the next value of the sequence, whether
    the driver fails or not. *)
Theorem ids_bien_se_conserva
    (self : QuinielaDatabase) (quiniela : list Resultado) (quiniela_id : Z)
    (srv : Server) :
  ids_bien srv ->
  ids_bien (snd (guardar_quiniela self quiniela srv)) /\
  ids_bien (snd (eliminar_quiniela self quiniela_id srv)).
Proof.
  intros HI. split.
  - destruct (guardar_quiniela_casos self quiniela srv)
      as (r & s' & H & [(Hq & _ & Hs) | (t & Hq & Hs & _)]);
      rewrite H; cbn [snd]; destruct HI as [Hnd Hlt]; unfold ids_bien;
      rewrite Hq.
    + split; [exact Hnd |]. intros x Hx. specialize (Hlt x Hx). lia.
    + split.
      * rewrite map_app. apply NoDup_app. split; [exact Hnd |]. split.
        -- intros i Hi Hi'. cbn in Hi'. apply list_elem_of_singleton in Hi'.
           apply list_elem_of_fmap in Hi as (x & Hx & Hin).
           specialize (Hlt x Hin). lia.
        -- apply NoDup_singleton.
      * intros x Hx. apply elem_of_app in Hx as [Hx | Hx].
        -- specialize (Hlt x Hx). lia.
        -- apply list_elem_of_singleton in Hx. subst x. cbn [id]. lia.
  - pose proof (eliminar_quiniela_seq self quiniela_id srv) as Hs.
    destruct (eliminar_quiniela_casos self quiniela_id srv)
      as (b & s' & H & [Hq | Hq] & _); rewrite H in *; cbn [snd] in *.
    + destruct HI as [Hnd Hlt]. unfold ids_bien. rewrite Hq, Hs.
      split; assumption.
    + apply (ids_bien_filter srv s' quiniela_id HI Hq Hs).
Qed.

Lemma ids_bien_se_conserva_witness :
  ids_bien (snd (guardar_quiniela (mkDb None true) [] servidor0)) /\
  ids_bien (snd (eliminar_quiniela (mkDb None true) 7 servidor0)).
Proof.
  apply (ids_bien_se_conserva (mkDb None true) [] 7 servidor0).
  split.
  - cbn. apply NoDup_singleton.
  - intros r Hr. cbn in Hr. apply list_elem_of_singleton in Hr. subst r.
    cbn. lia.
Defined.

(** X20. Deleting an identifier never touches the rows of the other
    identifiers: a row with another identifier is stored afterwards
    exactly when it was stored before. *)
Theorem eliminar_quiniela_otros
    (self : QuinielaDatabase) (quiniela_id : Z) (srv : Server) (r : Row) :
  id r <> quiniela_id ->
  (r ∈ quinielas (snd (eliminar_quiniela self quiniela_id srv))
   <-> r ∈ quinielas srv).
Proof.
  intros Hne.
  destruct (eliminar_quiniela_casos self quiniela_id srv)
    as (b & s' & H & [Hq | Hq] & _); rewrite H; cbn [snd]; rewrite Hq.
  - reflexivity.
  - rewrite list_elem_of_filter. tauto.
Qed.

Lemma eliminar_quiniela_otros_witness :
  mkRow 7 100 0 [] ∈ quinielas (snd (eliminar_quiniela (mkDb None true) 9 servidor0))
  <-> mkRow 7 100 0 [] ∈ quinielas servidor0.
Proof.
  apply (eliminar_quiniela_otros (mkDb None true) 9 servidor0 (mkRow 7 100 0 [])).
  cbn. lia.
Defined.

(** The next call of the driver does not fail. *)
Ltac sin_fallo Hf :=
  match goal with
  | |- context [if faults ?s ?n then _ else _] =>
      let E := fresh "E" in
      assert (E : faults s (calls s + (n - calls s)) = false)
        by (apply Hf; lia);
      replace (calls s + (n - calls s)) with n in E by lia;
      rewrite E; clear E
  end.

Lemma guardar_y_obtener_aux (self : QuinielaDatabase)
    (quiniela : list Resultado) (srv : Server) :
  db_available self = true -> ids_bien srv -> sin_fallos 13 srv ->
  exists s1 s2 row,
    guardar_quiniela self quiniela srv
      = (Ok (Some (quinielas_id_seq srv)), s1) /\
    obtener_quiniela_por_id self (quinielas_id_seq srv) s1
      = (Ok (Some row), s2) /\
    id row = quinielas_id_seq srv /\
    datos row = quiniela /\
    num_partidos row = Z.of_nat (length quiniela).
Proof.
  intros Hav [_ Hlt] Hf. unfold sin_fallos in Hf.
  unfold guardar_quiniela, obtener_quiniela_por_id. rewrite Hav. cbn [negb].
  eexists _, _, _. split.
  { desplegar. do 7 (sin_fallo Hf; desplegar). reflexivity. }
  desplegar. do 6 (sin_fallo Hf; desplegar).
  rewrite filter_app, filter_id_eq.
  - rewrite filter_cons_True by reflexivity.
    cbn [app head id datos num_partidos]. repeat split; reflexivity.
  - intros r Hr E. specialize (Hlt r Hr). lia.
Qed.

(** X21. With the store available, distinct identifiers below the
    sequence and a driver that works, saving a slip returns the next
    value of the sequence, and fetching that identifier right after
    returns a row with that identifier, the slip saved and its number of
    lines. *)
Theorem guardar_y_obtener (self : QuinielaDatabase)
    (quiniela : list Resultado) (srv : Server) :
  db_available self = true -> ids_bien srv -> sin_fallos 13 srv ->
  exists s1 s2 row,
    guardar_quiniela self quiniela srv
      = (Ok (Some (quinielas_id_seq srv)), s1) /\
    obtener_quiniela_por_id self (quinielas_id_seq srv) s1
      = (Ok (Some row), s2) /\
    id row = quinielas_id_seq srv /\
    datos row = quiniela /\
    num_partidos row = Z.of_nat (length quiniela).
Proof. apply guardar_y_obtener_aux. Qed.

Lemma servidor0_ids_bien : ids_bien servidor0.
Proof.
  split.
  - cbn. apply NoDup_singleton.
  - intros r Hr. cbn in Hr. apply list_elem_of_singleton in Hr. subst r.
    cbn. lia.
Defined.

Lemma guardar_y_obtener_witness :
  exists s1 s2 row,
    guardar_quiniela (mkDb None true) [] servidor0
      = (Ok (Some (quinielas_id_seq servidor0)), s1) /\
    obtener_quiniela_por_id (mkDb None true) (quinielas_id_seq servidor0) s1
      = (Ok (Some row), s2) /\
    id row = quinielas_id_seq servidor0 /\
    datos row = [] /\
    num_partidos row = Z.of_nat (length (@nil Resultado)).
Proof.
  apply (guardar_y_obtener (mkDb None true) [] servidor0).
  - reflexivity.
  - exact servidor0_ids_bien.
  - intros k Hk. reflexivity.
Defined.

Lemma insertar_Sorted (r : Row) (l : list Row) :
  Sorted mas_reciente l -> Sorted mas_reciente (insertar r l).
Proof.
  induction 1 as [|x l Hs IH Hhd]; cbn [insertar].
  - constructor; constructor.
  - destruct (fecha_generacion x <? fecha_generacion r)%Z eqn:E.
    + apply Z.ltb_lt in E. constructor; [constructor; assumption |].
      constructor. unfold mas_reciente. lia.
    + apply Z.ltb_ge in E. constructor; [exact IH |].
      destruct l as [|y l]; cbn [insertar].
      * constructor. exact E.
      * destruct (fecha_generacion y <? fecha_generacion r)%Z.
        -- constructor. exact E.
        -- inversion Hhd; subst. constructor. assumption.
Qed.

Lemma order_by_fecha_desc_Sorted (l : list Row) :
  Sorted mas_reciente (order_by_fecha_desc l).
Proof.
  unfold order_by_fecha_desc. induction l as [|x l IH]; cbn [foldr].
  - constructor.
  - apply insertar_Sorted, IH.
Qed.

Lemma insertar_Permutation (r : Row) (l : list Row) :
  insertar r l ≡ₚ r :: l.
Proof.
  induction l as [|x l IH]; cbn [insertar]; [reflexivity |].
  destruct (fecha_generacion x <? fecha_generacion r)%Z; [reflexivity |].
  rewrite IH. apply Permutation_swap.
Qed.

Lemma order_by_fecha_desc_Permutation (l : list Row) :
  order_by_fecha_desc l ≡ₚ l.
Proof.
  unfold order_by_fecha_desc. induction l as [|x l IH]; cbn [foldr];
    [reflexivity |].
  rewrite insertar_Permutation, IH. reflexivity.
Qed.

Lemma take_Sorted (n : nat) (l : list Row) :
  Sorted mas_reciente l -> Sorted mas_reciente (take n l).
Proof.
  intros H. revert n. induction H as [|x l Hs IH Hhd]; intros [|n];
    cbn [take]; try constructor.
  - apply IH.
  - destruct Hhd as [|y l' Hy]; destruct n; cbn [take]; constructor. exact Hy.
Qed.

(** X22. [obtener_quinielas] returns rows of the table, the most recent
    first, and no more of them than the limit; when the store is
    available, the driver works and the limit is at least the number of
    rows, it returns all of them. *)
Theorem obtener_quinielas_orden
    (self : QuinielaDatabase) (limite : Z) (srv : Server) :
  exists l srv',
    obtener_quinielas self limite srv = (Ok l, srv') /\
    length l <= Z.to_nat limite /\
    Sorted mas_reciente l /\
    (forall r, r ∈ l -> r ∈ quinielas srv) /\
    (db_available self = true -> sin_fallos 6 srv ->
     (Z.of_nat (length (quinielas srv)) <= limite)%Z ->
     l ≡ₚ quinielas srv).
Proof.
  unfold obtener_quinielas, sin_fallos.
  destruct (db_available self); cbn [negb].
  - desplegar. destruct (limite <? 0)%Z eqn:El.
    + repeat (falla; desplegar); eexists _, _;
        (split; [reflexivity |]);
        (split; [cbn; lia |]); (split; [constructor |]);
        (split; [intros r H; inversion H |]);
        intros _ _ Hlen; apply Z.ltb_lt in El; lia.
    + apply Z.ltb_ge in El.
      assert (Hlen : length (take (Z.to_nat limite)
                               (order_by_fecha_desc (quinielas srv)))
                     <= Z.to_nat limite) by (rewrite length_take; lia).
      assert (Hsub : forall r,
                r ∈ take (Z.to_nat limite) (order_by_fecha_desc (quinielas srv))
                -> r ∈ quinielas srv).
      { intros r H. apply order_by_fecha_desc_elem.
        apply (subseteq_take _ _ _ H). }
      repeat (falla; desplegar); eexists _, _;
        (split; [reflexivity |]);
        try (split; [cbn; lia |]; split; [constructor |];
             split; [intros r H; inversion H |];
             intros _ Hf _; exfalso;
             match goal with
             | E : faults srv ?n = true |- _ =>
                 let F := fresh "F" in
                 assert (F : faults srv (calls srv + (n - calls srv)) = false)
                   by (apply Hf; lia);
                 replace (calls srv + (n - calls srv)) with n in F by lia;
                 congruence
             end).
      split; [exact Hlen |].
      split; [apply take_Sorted, order_by_fecha_desc_Sorted |].
      split; [exact Hsub |].
      intros _ _ Hall. rewrite take_ge.
      * apply order_by_fecha_desc_Permutation.
      * rewrite (Permutation_length (order_by_fecha_desc_Permutation _)). lia.
  - eexists _, _. split; [reflexivity |]. split; [cbn; lia |].
    split; [constructor |]. split; [intros r H; inversion H |].
    discriminate.
Qed.

Lemma fold_left_min (l : list Z) (x : Z) :
  let m := fold_left Z.min l x in
  m ∈ x :: l /\ forall y, y ∈ x :: l -> (m <= y)%Z.
Proof.
  revert x. induction l as [|a l IH]; intros x; cbn zeta.
  - cbn. split; [left |]. intros y Hy.
    apply list_elem_of_singleton in Hy. lia.
  - cbn [fold_left]. destruct (IH (Z.min x a)) as [Hin Hle]. split.
    + apply elem_of_cons in Hin as [Hin | Hin].
      * rewrite Hin. destruct (Z.min_spec x a) as [[_ ->] | [_ ->]];
          [left | right; left].
      * right; right. exact Hin.
    + intros y Hy. apply elem_of_cons in Hy as [-> | Hy].
      * specialize (Hle (Z.min x a) ltac:(left)). lia.
      * apply elem_of_cons in Hy as [-> | Hy].
        -- specialize (Hle (Z.min x a) ltac:(left)). lia.
        -- apply Hle. right. exact Hy.
Qed.

Lemma fold_left_max (l : list Z) (x : Z) :
  let m := fold_left Z.max l x in
  m ∈ x :: l /\ forall y, y ∈ x :: l -> (y <= m)%Z.
Proof.
  revert x. induction l as [|a l IH]; intros x; cbn zeta.
  - cbn. split; [left |]. intros y Hy.
    apply list_elem_of_singleton in Hy. lia.
  - cbn [fold_left]. destruct (IH (Z.max x a)) as [Hin Hle]. split.
    + apply elem_of_cons in Hin as [Hin | Hin].
      * rewrite Hin. destruct (Z.max_spec x a) as [[_ ->] | [_ ->]];
          [right; left | left].
      * right; right. exact Hin.
    + intros y Hy. apply elem_of_cons in Hy as [-> | Hy].
      * specialize (Hle (Z.max x a) ltac:(left)). lia.
      * apply elem_of_cons in Hy as [-> | Hy].
        -- specialize (Hle (Z.max x a) ltac:(left)). lia.
        -- apply Hle. right. exact Hy.
Qed.

(** X23. With the store available and a driver that works,
    [obtener_estadisticas] returns the number of stored rows and the
    earliest and the latest of their dates: both are dates of stored rows
    and every stored date lies between them; on an empty table the count
    is 0 and both dates are None, the record of a disabled store. *)
Theorem obtener_estadisticas_fechas (self : QuinielaDatabase) (srv : Server) :
  db_available self = true -> sin_fallos 8 srv ->
  exists e srv',
    obtener_estadisticas self srv = (Ok e, srv') /\
    total_quinielas e = Z.of_nat (length (quinielas srv)) /\
    match quinielas srv with
    | [] => primera_quiniela e = None /\ ultima_quiniela e = None
    | _ :: _ =>
        exists a b,
          primera_quiniela e = Some a /\ ultima_quiniela e = Some b /\
          a ∈ map fecha_generacion (quinielas srv) /\
          b ∈ map fecha_generacion (quinielas srv) /\
          forall r, r ∈ quinielas srv ->
            (a <= fecha_generacion r <= b)%Z
    end.
Proof.
  intros Hav Hf. unfold sin_fallos in Hf.
  unfold obtener_estadisticas. rewrite Hav. cbn [negb].
  desplegar. do 8 (sin_fallo Hf; desplegar).
  eexists _, _. split; [reflexivity |].
  cbn [total_quinielas primera_quiniela ultima_quiniela].
  split; [reflexivity |].
  destruct (quinielas srv) as [|x l]; [split; reflexivity |].
  cbn [map agregado].
  destruct (fold_left_min (map fecha_generacion l) (fecha_generacion x))
    as [Hmin Hle].
  destruct (fold_left_max (map fecha_generacion l) (fecha_generacion x))
    as [Hmax Hge].
  cbn zeta in *. eexists _, _. split; [reflexivity |].
  split; [reflexivity |]. split; [exact Hmin |]. split; [exact Hmax |].
  intros r Hr.
  assert (Hin : fecha_generacion r ∈ fecha_generacion x :: map fecha_generacion l).
  { apply (list_elem_of_fmap_2 fecha_generacion (x :: l) r Hr). }
  split; [apply Hle, Hin | apply Hge, Hin].
Qed.

Lemma obtener_estadisticas_fechas_witness :
  exists e srv',
    obtener_estadisticas (mkDb None true) servidor0 = (Ok e, srv') /\
    total_quinielas e = Z.of_nat (length (quinielas servidor0)) /\
    match quinielas servidor0 with
    | [] => primera_quiniela e = None /\ ultima_quiniela e = None
    | _ :: _ =>
        exists a b,
          primera_quiniela e = Some a /\ ultima_quiniela e = Some b /\
          a ∈ map fecha_generacion (quinielas servidor0) /\
          b ∈ map fecha_generacion (quinielas servidor0) /\
          forall r, r ∈ quinielas servidor0 ->
            (a <= fecha_generacion r <= b)%Z
    end.
Proof.
  apply (obtener_estadisticas_fechas (mkDb None true) servidor0).
  - reflexivity.
  - intros k Hk. reflexivity.
Defined.

(** ** The handlers of the page *)

Section Pagina.
Import App.

Lemma generar_quinielas_ok (p : Partido) (ps : list Partido) (cantidad : Z)
    (g : Rng) :
  exists qs g',
    generar_quinielas (p :: ps) cantidad g = (Ok qs, g') /\
    length qs = Z.to_nat cantidad /\
    Forall (es_quiniela_de (p :: ps)) qs.
Proof.
  unfold generar_quinielas.
  destruct (mapM_ok (fun _ : nat => _generar_quiniela_individual (p :: ps))
              (fun _ q => es_quiniela_de (p :: ps) q) (range cantidad)
              (fun _ s _ => _generar_quiniela_individual_ok (p :: ps) s) g)
    as (qs & g' & Hqs & HF).
  exists qs, g'. split; [exact Hqs |]. split.
  - rewrite <- (Forall2_length _ _ _ HF). unfold range. apply length_seq.
  - clear Hqs. revert HF. generalize (range cantidad).
    intros l HF. induction HF; constructor; assumption.
Qed.

(** The slips of the page, in either mode. *)
Lemma generadas_ok (p : Partido) (ps : list Partido) (num : Z)
    (modo : pystr) (w : Mundo) :
  exists qs g',
    (if contiene (u "Aleatorio") modo then
       con_rng (generar_quinielas (p :: ps) num)
     else
       mapM (fun _ : nat =>
               con_rng (generar_quiniela_con_tendencia (p :: ps) (u "local")))
            (range num)) w
    = (Ok qs, mkMundo g' (servidor w)) /\
    length qs = Z.to_nat num /\
    Forall (es_quiniela_de (p :: ps)) qs.
Proof.
  destruct (contiene (u "Aleatorio") modo).
  - unfold con_rng.
    destruct (generar_quinielas_ok p ps num (rng w)) as (qs & g' & H & Hl & HF).
    rewrite H. exists qs, g'. repeat split; assumption.
  - assert (G : forall n k w,
              exists qs g',
                mapM (fun _ : nat =>
                        con_rng (generar_quiniela_con_tendencia (p :: ps)
                                   (u "local")))
                     (seq k n) w
                = (Ok qs, mkMundo g' (servidor w)) /\
                length qs = n /\
                Forall (es_quiniela_de (p :: ps)) qs).
    { clear. induction n as [|n IH]; intros k w.
      - exists [], (rng w). destruct w. repeat split; constructor.
      - cbn [seq mapM]. unfold bind at 1. unfold con_rng at 1.
        destruct (generar_quiniela_con_tendencia_completa (p :: ps)
                    (u "local") (rng w)) as (q & g1 & Hq & HF).
        rewrite Hq.
        destruct (IH (Datatypes.S k) (mkMundo g1 (servidor w)))
          as (qs & g' & H & Hl & HFs).
        cbn [servidor] in H. unfold bind at 1. rewrite H.
        exists (q :: qs), g'. split; [reflexivity |].
        split; [cbn; lia |].
        constructor; [apply linea_completa_quiniela, HF | exact HFs]. }
    apply G.
Qed.

(** The saving loop never raises and never touches the generator. *)
Lemma guardadas_ok (db : QuinielaDatabase) (qs : list (list Resultado))
    (n : nat) (w : Mundo) :
  exists k srv',
    Scraper.foldM
      (fun (guardadas : nat) quiniela =>
         let! r := con_db (guardar_quiniela db quiniela) in
         ret (if guardada r then guardadas + 1 else guardadas))
      qs n w
    = (Ok k, mkMundo (rng w) srv') /\
    n <= k <= n + length qs /\
    (db_available db = false -> k = n /\ srv' = servidor w).
Proof.
  revert n w. induction qs as [|q qs IH]; intros n w.
  - exists n, (servidor w). destruct w. split; [reflexivity |].
    split; [cbn; lia | tauto].
  - cbn [Scraper.foldM]. unfold bind at 1, bind at 1, con_db at 1.
    destruct (guardar_quiniela_casos db q (servidor w)) as (r & s1 & H & _).
    assert (Hoff : db_available db = false ->
                   guardar_quiniela db q (servidor w) = (Ok None, servidor w)).
    { intros E. unfold guardar_quiniela. rewrite E. reflexivity. }
    rewrite H. unfold ret at 1.
    destruct (IH (if guardada r then n + 1 else n) (mkMundo (rng w) s1))
      as (k & s2 & Hk & Hle & Hno).
    cbn [rng servidor] in *. rewrite Hk. exists k, s2.
    split; [reflexivity |]. split.
    + cbn [length]. destruct (guardada r); lia.
    + intros E. rewrite (Hoff E) in H. inversion H; subst r s1.
      cbn [guardada] in *. apply Hno, E.
Qed.

(** X24. The button "Actualizar Partidos" always ends in its success
    message: whatever the network gives it loads between 1 and 14
    matches, in each of which both names are longer than 2 and differ; it
    keeps the slips of the session and does not touch the store. The
    branches "No se pudieron obtener partidos" and "Error al obtener
    partidos" are never taken. *)
Theorem al_actualizar_siempre
    (requests_get : M Rng (list (list Scraper.Element)))
    (trafilatura_text : M Rng (option pystr))
    (findall_lineas : pystr -> list (pystr * pystr))
    (s : Session) (w : Mundo) :
  exists ps g',
    al_actualizar
      (Scraper.get_partidos requests_get trafilatura_text findall_lineas) s w
    = (Ok (mkSession ps (s_quinielas s), PartidosObtenidos (length ps)),
       mkMundo g' (servidor w)) /\
    1 <= length ps <= 14 /\ Forall partido_valido ps.
Proof.
  unfold al_actualizar, try_except, bind, con_rng.
  destruct (get_partidos_validos requests_get trafilatura_text findall_lineas
              (rng w)) as (ps & g' & H & Hl & Hv).
  rewrite H. exists ps, g'.
  destruct ps as [|p ps]; [cbn in Hl; lia |].
  split; [reflexivity |]. split; assumption.
Qed.

(** X25. The button "Generar Quinielas". Without matches in the session
    it shows "Primero actualiza los partidos" and changes nothing. With
    matches and a number [num >= 0] it never raises, in either mode: the
    session then holds exactly [num] slips, each a slip for the matches of
    the session, which stay as they are; and the message is one of the
    three about saving, the warning only with at least one slip saved. *)
Theorem al_generar_quinielas
    (db : QuinielaDatabase) (s : Session) (num : Z) (modo : pystr)
    (w : Mundo) :
  (s_partidos s = [] ->
   al_generar db s num modo w = (Ok (s, PrimeroActualiza), w)) /\
  (s_partidos s <> [] -> (0 <= num)%Z ->
   exists qs aviso w',
     al_generar db s num modo w
       = (Ok (mkSession (s_partidos s) qs, aviso), w') /\
     Z.of_nat (length qs) = num /\
     Forall (es_quiniela_de (s_partidos s)) qs /\
     (aviso = GeneradasYGuardadas num \/
      (exists k, 0 < k /\ aviso = SoloGuardadas num k) \/
      aviso = NoGuardadas num)).
Proof.
  unfold al_generar. split.
  - intros ->. reflexivity.
  - intros Hne Hnum. destruct (s_partidos s) as [|p ps]; [congruence |].
    unfold bind at 1.
    destruct (generadas_ok p ps num modo w) as (qs & g' & H & Hl & HF).
    rewrite H. unfold bind at 1.
    destruct (guardadas_ok db qs 0 (mkMundo g' (servidor w)))
      as (k & s2 & Hk & _ & _).
    rewrite Hk. eexists qs, _, _. split; [reflexivity |].
    split; [lia |]. split; [exact HF |].
    destruct (Z.of_nat k =? num)%Z; [left; reflexivity |].
    destruct (0 <? k) eqn:E; [| right; right; reflexivity].
    right; left. exists k. apply Nat.ltb_lt in E. split; [exact E | reflexivity].
Qed.

(** X26. Without a database (no [DATABASE_URL]), generating at least one
    slip always ends in the error "no se pudieron guardar en la base de
    datos", although the slips are generated and kept in the session; the
    store is not touched. *)
Theorem al_generar_sin_base
    (db : QuinielaDatabase) (s : Session) (num : Z) (modo : pystr)
    (w : Mundo) :
  db_available db = false -> s_partidos s <> [] -> (1 <= num)%Z ->
  exists qs g',
    al_generar db s num modo w
      = (Ok (mkSession (s_partidos s) qs, NoGuardadas num),
         mkMundo g' (servidor w)) /\
    Z.of_nat (length qs) = num.
Proof.
  intros Hoff Hne Hnum. unfold al_generar.
  destruct (s_partidos s) as [|p ps]; [congruence |].
  unfold bind at 1.
  destruct (generadas_ok p ps num modo w) as (qs & g' & H & Hl & HF).
  rewrite H. unfold bind at 1.
  destruct (guardadas_ok db qs 0 (mkMundo g' (servidor w)))
    as (k & s2 & Hk & _ & Hno).
  destruct (Hno Hoff) as [-> ->]. rewrite Hk.
  exists qs, g'. cbn [rng servidor].
  destruct (Z.of_nat 0 =? num)%Z eqn:E; [apply Z.eqb_eq in E; lia |].
  split; [reflexivity | lia].
Qed.

Lemma al_generar_sin_base_witness :
  exists qs g',
    al_generar bd_inactiva sesion0 5 (u "🎲 Aleatorio") mundo0
      = (Ok (mkSession (s_partidos sesion0) qs, NoGuardadas 5),
         mkMundo g' (servidor mundo0)) /\
    Z.of_nat (length qs) = 5%Z.
Proof.
  apply (al_generar_sin_base bd_inactiva sesion0 5 (u "🎲 Aleatorio") mundo0).
  - reflexivity.
  - discriminate.
  - lia.
Defined.

Lemma guardar_quiniela_sin_fallos (db : QuinielaDatabase)
    (q : list Resultado) (srv : Server) :
  db_available db = true -> sin_fallos 7 srv ->
  exists srv',
    guardar_quiniela db q srv = (Ok (Some (quinielas_id_seq srv)), srv') /\
    calls srv' = calls srv + 7 /\
    faults srv' = faults srv /\
    quinielas_id_seq srv' = (quinielas_id_seq srv + 1)%Z.
Proof.
  intros Hav Hf. unfold sin_fallos in Hf.
  unfold guardar_quiniela. rewrite Hav. cbn [negb].
  desplegar. do 7 (sin_fallo Hf; desplegar).
  eexists. split; [reflexivity |].
  cbn [calls faults quinielas_id_seq]. repeat split. lia.
Qed.

Lemma guardadas_todas (db : QuinielaDatabase) (qs : list (list Resultado))
    (n : nat) (w : Mundo) :
  db_available db = true ->
  (0 < quinielas_id_seq (servidor w))%Z ->
  sin_fallos (7 * length qs) (servidor w) ->
  exists w',
    Scraper.foldM
      (fun (guardadas : nat) quiniela =>
         let! r := con_db (guardar_quiniela db quiniela) in
         ret (if guardada r then guardadas + 1 else guardadas))
      qs n w
    = (Ok (n + length qs), w').
Proof.
  intros Hav. revert n w. induction qs as [|q qs IH]; intros n w Hseq Hf.
  - exists w. cbn. rewrite Nat.add_0_r. reflexivity.
  - cbn [Scraper.foldM]. unfold bind at 1, bind at 1, con_db at 1.
    destruct (guardar_quiniela_sin_fallos db q (servidor w) Hav)
      as (s1 & H & Hc & Hfa & Hs).
    { intros k Hk. apply Hf. cbn [length]. lia. }
    rewrite H. unfold ret at 1. cbn [guardada].
    replace (negb (quinielas_id_seq (servidor w) =? 0)%Z) with true
      by (symmetry; apply negb_true_iff, Z.eqb_neq; lia).
    destruct (IH (n + 1) (mkMundo (rng w) s1)) as (w' & Hw).
    + cbn [servidor]. lia.
    + cbn [servidor]. intros k Hk. rewrite Hfa, Hc.
      replace (calls (servidor w) + 7 + k)
        with (calls (servidor w) + (7 + k)) by lia.
      apply Hf. cbn [length]. lia.
    + rewrite Hw. exists w'. do 2 f_equal. cbn [length]. lia.
Qed.

(** X27. With matches loaded, the store available, a positive next
    identifier and a driver that works for the 7 calls of each save,
    generating [num >= 0] slips ends in the message "generada(s) y
    guardada(s)": every slip generated is saved. *)
Theorem al_generar_y_guardar
    (db : QuinielaDatabase) (s : Session) (num : Z) (modo : pystr)
    (w : Mundo) :
  db_available db = true -> s_partidos s <> [] -> (0 <= num)%Z ->
  (0 < quinielas_id_seq (servidor w))%Z ->
  sin_fallos (7 * Z.to_nat num) (servidor w) ->
  exists qs w',
    al_generar db s num modo w
      = (Ok (mkSession (s_partidos s) qs, GeneradasYGuardadas num), w') /\
    Z.of_nat (length qs) = num.
Proof.
  intros Hav Hne Hnum Hseq Hf. unfold al_generar.
  destruct (s_partidos s) as [|p ps]; [congruence |].
  unfold bind at 1.
  destruct (generadas_ok p ps num modo w) as (qs & g' & H & Hl & HF).
  rewrite H. unfold bind at 1.
  destruct (guardadas_todas db qs 0 (mkMundo g' (servidor w)) Hav)
    as (w' & Hw).
  { exact Hseq. }
  { cbn [servidor]. rewrite Hl. exact Hf. }
  rewrite Hw. exists qs, w'. cbn [Nat.add].
  replace (Z.of_nat (length qs) =? num)%Z with true
    by (symmetry; apply Z.eqb_eq; lia).
  split; [reflexivity | lia].
Qed.

Lemma al_generar_y_guardar_witness :
  exists qs w',
    al_generar bd_activa sesion0 2 (u "📊 Inteligente (favoritos locales)")
      mundo0
      = (Ok (mkSession (s_partidos sesion0) qs, GeneradasYGuardadas 2), w') /\
    Z.of_nat (length qs) = 2%Z.
Proof.
  apply (al_generar_y_guardar bd_activa sesion0 2
           (u "📊 Inteligente (favoritos locales)") mundo0).
  - reflexivity.
  - discriminate.
  - lia.
  - reflexivity.
  - intros k Hk. reflexivity.
Defined.

End Pagina.
